(** * PyAti: the ATI force/torque sensor client (src/PyAti.py)

    A shallow embedding of the class [ATISensor] and a verification of its
    wire formats, its request/response discipline and its error behaviour.

    - Python values are a small tagged union ([value]); an instance is its
      attribute dictionary, a [gmap string value], so that [self.ip] is a
      lookup that can fail.
    - Bytes are [list byte]; [struct.pack] / [struct.unpack] with the [>]
      (big-endian, unpadded) prefix are interpreted over a list of format
      codes.
    - Floats are the kernel's binary64 numbers; Python's [/] on an [int]
      numerator is [truediv].
    - Every method runs in the monad [M]: it threads a [world] (what the
      sockets and the peer will do, and the trace of what the program did)
      and ends with a value, a raised exception or a blocked call.
    - The socket library is the boundary: [socket()], [settimeout],
      [sendto], [connect] and [sendall] succeed or raise as the world
      scripts it, [recvfrom] and [recv] hand over what the peer sent (a
      datagram cut to the buffer size, as on POSIX systems; a stream in
      segments), [close] and [print] always succeed.  Every exception is
      an instance of [Exception]. *)

From Stdlib Require Import ZArith Floats.
From Stdlib.Strings Require Import Byte Ascii.
From stdpp Require Import gmap strings list pretty.
From Equations Require Import Equations.

Local Open Scope Z_scope.

(** ** Bytes and big-endian integers *)

Definition byte_to_Z (b : byte) : Z := Z.of_N (Byte.to_N b).

Definition Z_to_byte (z : Z) : byte :=
  default Byte.x00 (Byte.of_N (Z.to_N (Z.land z 255))).

(** [int.from_bytes(bs, 'big')]. *)
Definition be_uint (bs : list byte) : Z :=
  fold_left (fun acc b => Z.lor (Z.shiftl acc 8) (byte_to_Z b)) bs 0.

(** [int.from_bytes(bs, 'big', signed=True)]: two's complement on
    [8 * len(bs)] bits. *)
Definition be_int (bs : list byte) : Z :=
  let w := 8 * Z.of_nat (length bs) in
  let u := be_uint bs in
  if (0 <? w) && (2 ^ (w - 1) <=? u) then u - 2 ^ w else u.

(** The [n] low bytes of [z], most significant first. *)
Fixpoint be_bytes (n : nat) (z : Z) : list byte :=
  match n with
  | O => []
  | S n' => Z_to_byte (Z.shiftr z (8 * Z.of_nat n')) :: be_bytes n' z
  end.

(** ** Exceptions *)

Inductive exn : Type :=
| AttributeError (msg : string)
| RuntimeError (msg : string)
| ZeroDivisionError (msg : string)
| OverflowError (msg : string)
| TypeError (msg : string)
| ValueError (msg : string)
| IndexError (msg : string)
| StructError (msg : string)
| OSError (msg : string).

(** [str(e)]. *)
Definition exn_str (e : exn) : string :=
  match e with
  | AttributeError m | RuntimeError m | ZeroDivisionError m | OverflowError m
  | TypeError m | ValueError m | IndexError m | StructError m | OSError m => m
  end.

Inductive outcome (A : Type) : Type :=
| Ok (a : A)
| Raise (e : exn)
| Blocks.
Arguments Ok {A} a.
Arguments Raise {A} e.
Arguments Blocks {A}.

#[global] Instance outcome_bind : MBind outcome := fun A B k r =>
  match r with
  | Ok a => k a
  | Raise e => Raise e
  | Blocks => Blocks
  end.

(** ** The [struct] module, big-endian formats *)

Inductive fmt : Type :=
| FH   (* H: unsigned 16-bit *)
| FB   (* B: unsigned 8-bit *)
| Fi   (* i: signed 32-bit *)
| FI   (* I: unsigned 32-bit *)
| Fx.  (* x: pad byte, no value *)

Definition fmt_size (c : fmt) : nat :=
  match c with
  | FH => 2 | FB => 1 | Fi => 4 | FI => 4 | Fx => 1
  end%nat.

Definition calcsize (f : list fmt) : nat := sum_list (fmt_size <$> f).

Definition fmt_fits (c : fmt) (z : Z) : bool :=
  match c with
  | FH => (0 <=? z) && (z <=? 65535)
  | FB => (0 <=? z) && (z <=? 255)
  | Fi => (-2147483648 <=? z) && (z <=? 2147483647)
  | FI => (0 <=? z) && (z <=? 4294967295)
  | Fx => true
  end.

(** [struct.pack('>' + f, *args)]. *)
Fixpoint struct_pack (f : list fmt) (args : list Z) : outcome (list byte) :=
  match f with
  | [] =>
      match args with
      | [] => Ok []
      | _ :: _ => Raise (StructError "pack got too many arguments")
      end
  | Fx :: f' =>
      match struct_pack f' args with
      | Ok bs => Ok (Byte.x00 :: bs)
      | r => r
      end
  | c :: f' =>
      match args with
      | [] => Raise (StructError "pack got too few arguments")
      | z :: args' =>
          if fmt_fits c z then
            match struct_pack f' args' with
            | Ok bs => Ok (be_bytes (fmt_size c) z ++ bs)
            | r => r
            end
          else Raise (StructError "argument out of range")
      end
  end.

Definition unpack_one (c : fmt) (bs : list byte) : option Z :=
  match c with
  | Fx => None
  | Fi => Some (be_int bs)
  | FH | FB | FI => Some (be_uint bs)
  end.

Fixpoint unpack_fields (f : list fmt) (bs : list byte) : list Z :=
  match f with
  | [] => []
  | c :: f' =>
      let rest := unpack_fields f' (drop (fmt_size c) bs) in
      match unpack_one c (take (fmt_size c) bs) with
      | Some z => z :: rest
      | None => rest
      end
  end.

(** [struct.unpack('>' + f, bs)]: the buffer must have exactly the
    format's size. *)
Definition struct_unpack (f : list fmt) (bs : list byte) : outcome (list Z) :=
  if decide (length bs = calcsize f) then Ok (unpack_fields f bs)
  else Raise (StructError "unpack requires a buffer of the format's size").

(** The four formats of the source. *)
Definition fmt_HHHH : list fmt := [FH; FH; FH; FH].           (* '>HHHH' *)
Definition fmt_6i : list fmt := replicate 6 Fi.               (* '>6i' *)
Definition fmt_B19x : list fmt := FB :: replicate 19 Fx.      (* '>B19x' *)
Definition fmt_HBBII6H : list fmt :=                          (* '>HBBII6H' *)
  [FH; FB; FB; FI; FI] ++ replicate 6 FH.

(** ** Numbers: [str], [hex] and true division *)

(** [str(n)] for a length. *)
Definition str_nat (n : nat) : string := pretty n.

Definition hex_digit (d : Z) : ascii :=
  default "0"%char (String.get (Z.to_nat d) "0123456789abcdef").

Fixpoint hex_digits (fuel : nat) (z : Z) (acc : string) : string :=
  match fuel with
  | O => acc
  | S fuel' =>
      let acc' := String (hex_digit (Z.land z 15)) acc in
      if Z.shiftr z 4 =? 0 then acc' else hex_digits fuel' (Z.shiftr z 4) acc'
  end.

(** [hex(z)]: lower-case digits, no padding, sign before the prefix. *)
Definition hex (z : Z) : string :=
  let digits a := hex_digits (S (Z.to_nat (Z.log2 a))) a "" in
  if z <? 0 then "-0x" +:+ digits (- z) else "0x" +:+ digits z.

(** The integer [z] as a [spec_float] with exponent 0 (not normalised). *)
Definition SF_of_Z (z : Z) : spec_float :=
  match z with
  | Z0 => S754_zero false
  | Zpos p => S754_finite false p 0
  | Zneg p => S754_finite true p 0
  end.

(** [float(z)]: the nearest binary64 number, ties to even. *)
Definition float_of_Z (z : Z) : float :=
  SF2Prim (binary_normalize prec emax z 0 false).

Definition float_is_zero (f : float) : bool := PrimFloat.eqb f 0%float.

(** ** Python values and objects *)

Inductive sock_kind : Type := SOCK_DGRAM | SOCK_STREAM.

#[local] Unset Elimination Schemes.
Inductive value : Type :=
| VNone
| VInt (z : Z)
| VFloat (f : float)
| VStr (s : string)
| VBytes (bs : list byte)
| VPair (a b : value)          (* a 2-tuple, as in the address (host, port) *)
| VList (vs : list value)
| VSock (k : sock_kind).
#[local] Set Elimination Schemes.

(** An instance (and the dict a method returns): names to values. *)
Abbreviation obj := (gmap string value).

(** Largest magnitude that [float()] and [/] still round to a finite
    binary64 number: everything from [2^1024 - 2^970] on overflows. *)
Definition float_overflow_threshold : Z := 2 ^ 1024 - 2 ^ 970.

(** The value of [a / d] when no exception is raised: for two [int]s the
    correctly rounded quotient, for a [float] divisor the IEEE quotient of
    [float(a)] by it. *)
Definition float_quot (a : Z) (d : value) : float :=
  match d with
  | VInt z => SF2Prim (SFdiv prec emax (SF_of_Z a) (SF_of_Z z))
  | VFloat f => (float_of_Z a / f)%float
  | _ => nan
  end.

(** [a / d] for an [int] a: Python's true division. *)
Definition truediv (a : Z) (d : value) : outcome float :=
  match d with
  | VInt z =>
      if z =? 0 then Raise (ZeroDivisionError "division by zero")
      else if float_overflow_threshold * Z.abs z <=? Z.abs a
      then Raise (OverflowError "integer division result too large for a float")
      else Ok (float_quot a d)
  | VFloat f =>
      if float_overflow_threshold <=? Z.abs a
      then Raise (OverflowError "int too large to convert to float")
      else if float_is_zero f
      then Raise (ZeroDivisionError "float division by zero")
      else Ok (float_quot a d)
  | _ => Raise (TypeError "unsupported operand type(s) for /")
  end.

(** ** The world: sockets, peer and trace *)

(** What the program does to its environment, in order. *)
Inductive event : Type :=
| ESocket (k : sock_kind)                       (* socket.socket(AF_INET, k) *)
| ESendTo (data : list byte) (addr : value)     (* sock.sendto(data, addr) *)
| ERecvFrom (bufsize : nat)                     (* sock.recvfrom(bufsize) *)
| ESetTimeout (t : value)                       (* sock.settimeout(t) *)
| EConnect (addr : value)                       (* sock.connect(addr) *)
| ESendAll (data : list byte)                   (* sock.sendall(data) *)
| ERecv (bufsize : nat)                         (* sock.recv(bufsize) *)
| EClose (k : sock_kind)                        (* sock.close() *)
| EPrint (line : string).                       (* print(line) *)

(** The library calls whose only answer is "done" or an exception. *)
Inductive call : Type := CSocket | CSetTimeout | CSendTo | CConnect | CSendAll.

(** What [recvfrom] finds: a datagram from the peer, or an error. *)
Inductive udp_reply : Type :=
| Datagram (d : list byte)
| RecvfromRaises (e : exn).

(** What [recv] finds on the stream: a non-empty segment, or an error
    (a timeout, a reset).  The end of the list is the peer's close. *)
Inductive tcp_event : Type :=
| Segment (b : byte) (bs : list byte)
| RecvRaises (e : exn).

Record world : Type := World {
  udp_open : bool;                        (* the datagram socket is not closed *)
  socket_script : list (option exn);      (* answers to the next socket.socket() calls *)
  settimeout_script : list (option exn);
  sendto_script : list (option exn);
  connect_script : list (option exn);
  sendall_script : list (option exn);
  recvfrom_script : list udp_reply;       (* none left: recvfrom never returns *)
  tcp_streams : list (list tcp_event);    (* what each next connection will deliver *)
  tcp_in : list tcp_event;                (* what the open connection still delivers *)
  trace : list event                      (* oldest first *)
}.

Definition script (c : call) (w : world) : list (option exn) :=
  match c with
  | CSocket => socket_script w
  | CSetTimeout => settimeout_script w
  | CSendTo => sendto_script w
  | CConnect => connect_script w
  | CSendAll => sendall_script w
  end.

Definition set_script (c : call) (s : list (option exn)) (w : world) : world :=
  match c with
  | CSocket =>
      World (udp_open w) s (settimeout_script w) (sendto_script w) (connect_script w)
        (sendall_script w) (recvfrom_script w) (tcp_streams w) (tcp_in w) (trace w)
  | CSetTimeout =>
      World (udp_open w) (socket_script w) s (sendto_script w) (connect_script w)
        (sendall_script w) (recvfrom_script w) (tcp_streams w) (tcp_in w) (trace w)
  | CSendTo =>
      World (udp_open w) (socket_script w) (settimeout_script w) s (connect_script w)
        (sendall_script w) (recvfrom_script w) (tcp_streams w) (tcp_in w) (trace w)
  | CConnect =>
      World (udp_open w) (socket_script w) (settimeout_script w) (sendto_script w) s
        (sendall_script w) (recvfrom_script w) (tcp_streams w) (tcp_in w) (trace w)
  | CSendAll =>
      World (udp_open w) (socket_script w) (settimeout_script w) (sendto_script w)
        (connect_script w) s (recvfrom_script w) (tcp_streams w) (tcp_in w) (trace w)
  end.

Definition set_udp_open (b : bool) (w : world) : world :=
  World b (socket_script w) (settimeout_script w) (sendto_script w) (connect_script w)
    (sendall_script w) (recvfrom_script w) (tcp_streams w) (tcp_in w) (trace w).

Definition set_recvfrom_script (s : list udp_reply) (w : world) : world :=
  World (udp_open w) (socket_script w) (settimeout_script w) (sendto_script w)
    (connect_script w) (sendall_script w) s (tcp_streams w) (tcp_in w) (trace w).

Definition set_tcp (streams : list (list tcp_event)) (cur : list tcp_event)
    (w : world) : world :=
  World (udp_open w) (socket_script w) (settimeout_script w) (sendto_script w)
    (connect_script w) (sendall_script w) (recvfrom_script w) streams cur (trace w).

Definition log (ev : event) (w : world) : world :=
  World (udp_open w) (socket_script w) (settimeout_script w) (sendto_script w)
    (connect_script w) (sendall_script w) (recvfrom_script w) (tcp_streams w)
    (tcp_in w) (trace w ++ [ev]).

(** ** The monad of methods *)

Definition M (A : Type) : Type := world -> outcome A * world.

#[global] Instance M_ret : MRet M := fun A a w => (Ok a, w).

#[global] Instance M_bind : MBind M := fun A B k m w =>
  match m w with
  | (Ok a, w') => k a w'
  | (Raise e, w') => (Raise e, w')
  | (Blocks, w') => (Blocks, w')
  end.

Definition raise {A} (e : exn) : M A := fun w => (Raise e, w).

Definition lift {A} (r : outcome A) : M A := fun w => (r, w).

Definition modify (f : world -> world) : M unit := fun w => (Ok tt, f w).

Definition emit (ev : event) : M unit := modify (log ev).

(** [try: body except Exception as e: handler(e)]. *)
Definition try_except {A} (body : M A) (handler : exn -> M A) : M A := fun w =>
  match body w with
  | (Raise e, w') => handler e w'
  | r => r
  end.

(** [try: body finally: cleanup]. *)
Definition try_finally {A} (body : M A) (cleanup : M unit) : M A := fun w =>
  match body w with
  | (Blocks, w') => (Blocks, w')
  | (r, w') =>
      match cleanup w' with
      | (Ok _, w'') => (r, w'')
      | (Raise e, w'') => (Raise e, w'')
      | (Blocks, w'') => (Blocks, w'')
      end
  end.

Definition print (line : string) : M unit := emit (EPrint line).

(** A library call answered by the next entry of its script: nothing
    scripted, or [None], lets it succeed. *)
Definition answer (c : call) : M unit := fun w =>
  match script c w with
  | [] => (Ok tt, w)
  | None :: s => (Ok tt, set_script c s w)
  | Some e :: s => (Raise e, set_script c s w)
  end.

(** [obj.name]. *)
Definition getattr (self : obj) (name : string) : M value :=
  match self !! name with
  | Some v => mret v
  | None =>
      raise (AttributeError ("'ATISensor' object has no attribute '" +:+ name +:+ "'"))
  end.

Definition bad_file_descriptor : exn := OSError "[Errno 9] Bad file descriptor".

(** ** The socket library *)

(** [socket.socket(socket.AF_INET, k)]. *)
Definition socket_socket (k : sock_kind) : M value :=
  emit (ESocket k);;
  answer CSocket;;
  modify (match k with SOCK_DGRAM => set_udp_open true | SOCK_STREAM => λ w, w end);;
  mret (VSock k).

(** An operation on the datagram socket: on a closed socket the library
    raises [OSError] (EBADF) without reaching the network. *)
Definition on_open_udp {A} (m : M A) : M A := fun w =>
  if udp_open w then m w else (Raise bad_file_descriptor, w).

(** [sock.sendto(data, addr)] on the datagram socket. *)
Definition sock_sendto (sock data addr : value) : M unit :=
  match sock, data with
  | VSock SOCK_DGRAM, VBytes bs =>
      emit (ESendTo bs addr);;
      on_open_udp (answer CSendTo)
  | VSock _, _ => raise (TypeError "a bytes-like object is required")
  | _, _ => raise (AttributeError "object has no attribute 'sendto'")
  end.

(** [sock.recvfrom(bufsize)]: the next datagram, cut to [bufsize] bytes (a
    datagram socket hands over at most [bufsize] bytes and drops the rest
    of the datagram).  The sender's address, which the callers ignore, is
    left out. *)
Definition sock_recvfrom (sock : value) (bufsize : nat) : M (list byte) :=
  match sock with
  | VSock SOCK_DGRAM =>
      emit (ERecvFrom bufsize);;
      on_open_udp (λ w,
        match recvfrom_script w with
        | [] => (Blocks, w)
        | Datagram d :: s => (Ok (take bufsize d), set_recvfrom_script s w)
        | RecvfromRaises e :: s => (Raise e, set_recvfrom_script s w)
        end)
  | _ => raise (AttributeError "object has no attribute 'recvfrom'")
  end.

(** [sock.close()]: never fails, also on a closed socket. *)
Definition sock_close (sock : value) : M unit :=
  match sock with
  | VSock k =>
      emit (EClose k);;
      modify (match k with SOCK_DGRAM => set_udp_open false | SOCK_STREAM => λ w, w end)
  | _ => raise (AttributeError "object has no attribute 'close'")
  end.

(** [sock.settimeout(t)]. *)
Definition sock_settimeout (sock t : value) : M unit :=
  emit (ESetTimeout t);; answer CSetTimeout.

(** [sock.connect(addr)]: on success the peer's stream becomes readable. *)
Definition sock_connect (sock addr : value) : M unit :=
  emit (EConnect addr);;
  answer CConnect;;
  modify (λ w, set_tcp (tail (tcp_streams w)) (default [] (head (tcp_streams w))) w).

(** [sock.sendall(data)]. *)
Definition sock_sendall (sock : value) (data : list byte) : M unit :=
  emit (ESendAll data);; answer CSendAll.

(** [sock.recv(bufsize)] on the stream: at most [bufsize] bytes of the
    next segment (the rest stays queued), [b''] once the peer has closed. *)
Definition sock_recv (sock : value) (bufsize : nat) : M (list byte) :=
  emit (ERecv bufsize);;
  ((λ w,
    match tcp_in w with
    | [] => (Ok [], w)
    | RecvRaises e :: rest => (Raise e, set_tcp (tcp_streams w) rest w)
    | Segment b bs :: rest =>
        (Ok (take bufsize (b :: bs)),
         set_tcp (tcp_streams w)
           match drop bufsize (b :: bs) with
           | [] => rest
           | b' :: bs' => Segment b' bs' :: rest
           end w)
    end) : M (list byte)).

(** ** class ATISensor *)

(** [l[i:j]] for [0 <= i <= j]. *)
Definition slice {A} (i j : nat) (l : list A) : list A := take (j - i) (drop i l).

(** [l[i]]. *)
Definition index (l : list Z) (i : nat) : M Z :=
  match l !! i with
  | Some z => mret z
  | None => raise (IndexError "list index out of range")
  end.

Definition default_tcp_port : value := VInt 49151.
Definition default_udp_port : value := VInt 49152.
Definition default_timeout : value := VFloat 2%float.

Definition __init__ (ip counts_per_force counts_per_torque tcp_port udp_port timeout : value)
    : M obj :=
  let self : obj := ∅ in
  let self := <["tcp_port" := tcp_port]> self in
  let self := <["addr" := VPair ip udp_port]> self in
  sock ← socket_socket SOCK_DGRAM;
  let self := <["sock" := sock]> self in
  command ← lift (struct_pack fmt_HHHH [0x1234; 2; 0; 1]);
  let self := <["command" := VBytes command]> self in
  let self := <["counts_per_force" := counts_per_force]> self in
  let self := <["counts_per_torque" := counts_per_torque]> self in
  let self := <["timeout" := timeout]> self in
  mret self.

Definition read_raw_counts (self : obj) : M (list Z) :=
  sock ← getattr self "sock";
  command ← getattr self "command";
  addr ← getattr self "addr";
  sock_sendto sock command addr;;
  sock ← getattr self "sock";
  data ← sock_recvfrom sock 36;
  if decide (length data ≠ 36%nat)
  then raise (RuntimeError "Invalid ATI response length")
  else lift (struct_unpack fmt_6i (slice 12 36 data)).

Definition read_ft (self : obj) : M (float * float * float * float * float * float) :=
  raw_counts ← read_raw_counts self;
  r ← index raw_counts 0; c ← getattr self "counts_per_force"; fx ← lift (truediv r c);
  r ← index raw_counts 1; c ← getattr self "counts_per_force"; fy ← lift (truediv r c);
  r ← index raw_counts 2; c ← getattr self "counts_per_force"; fz ← lift (truediv r c);
  r ← index raw_counts 3; c ← getattr self "counts_per_torque"; tx ← lift (truediv r c);
  r ← index raw_counts 4; c ← getattr self "counts_per_torque"; ty ← lift (truediv r c);
  r ← index raw_counts 5; c ← getattr self "counts_per_torque"; tz ← lift (truediv r c);
  mret (fx, fy, fz, tx, ty, tz).

Definition bias_current_value (self : obj) : M unit :=
  BIAS_CMD ← lift (struct_pack fmt_HHHH [0x1234; 0x0042; 0; 0]);
  try_except
    (sock ← getattr self "sock";
     addr ← getattr self "addr";
     sock_sendto sock (VBytes BIAS_CMD) addr;;
     print "[Bias] Sent software bias command to ATI device.")
    (fun e => print ("[Bias Error] " +:+ exn_str e)).

Definition close (self : obj) : M unit :=
  sock ← getattr self "sock";
  sock_close sock.

(** The loop of [recv_all], from the bytes gathered so far. *)
Equations? recv_all_loop (sock : value) (len : nat) (data : list byte) (w : world)
    : outcome (list byte) * world by wf (len - length data)%nat lt :=
recv_all_loop sock len data w with decide (length data < len)%nat := {
  | right _ => (Ok data, w)
  | left _ with sock_recv sock (len - length data) w := {
      | (Ok [], w') => (Ok data, w')
      | (Ok (b :: packet), w') => recv_all_loop sock len (data ++ b :: packet) w'
      | (Raise e, w') => (Raise e, w')
      | (Blocks, w') => (Blocks, w') } }.
Proof. rewrite length_app; simpl; lia. Qed.

Definition recv_all (sock : value) (len : nat) : M (list byte) :=
  recv_all_loop sock len [].

Definition read_calibration_info (self : obj) : M obj :=
  sock ← socket_socket SOCK_STREAM;
  try_finally
    (timeout ← getattr self "timeout";
     sock_settimeout sock timeout;;
     ip ← getattr self "ip";
     tcp_port ← getattr self "tcp_port";
     sock_connect sock (VPair ip tcp_port);;
     cmd ← lift (struct_pack fmt_B19x [1]);
     sock_sendall sock cmd;;
     response ← recv_all sock 24;
     if decide (length response ≠ 24%nat)
     then raise (RuntimeError ("Invalid response length: " +:+ str_nat (length response)))
     else
       fields ← lift (struct_unpack fmt_HBBII6H response);
       match fields with
       | header :: force_unit :: torque_unit :: cpf :: cpt :: scale_factors =>
           if decide (header ≠ 0x1234)
           then raise (RuntimeError ("Invalid header: " +:+ hex header))
           else mret (<["force_unit_code" := VInt force_unit]>
                     (<["torque_unit_code" := VInt torque_unit]>
                     (<["counts_per_force" := VInt cpf]>
                     (<["counts_per_torque" := VInt cpt]>
                     (<["scale_factors" := VList (VInt <$> scale_factors)]> ∅)))))
       | _ => raise (ValueError "not enough values to unpack")
       end)
    (sock_close sock).

Definition force_units : gmap Z string :=
  <[1 := "Pound"]> (<[2 := "Newton"]> (<[3 := "Kilopound"]> (<[4 := "Kilonewton"]>
  (<[5 := "Kilogram"]> (<[6 := "Gram"]> ∅))))).

Definition torque_units : gmap Z string :=
  <[1 := "Pound-inch"]> (<[2 := "Pound-foot"]> (<[3 := "Newton-meter"]>
  (<[4 := "Newton-millimeter"]> (<[5 := "Kilogram-centimeter"]>
  (<[6 := "Kilonewton-meter"]> ∅))))).

Definition describe_units (self : obj) (code : Z) (is_force : bool) : M string :=
  mret (if is_force then default "Unknown" (force_units !! code)
        else default "Unknown" (torque_units !! code)).

(** ** Vocabulary of the statements *)

(** How the next library call of kind [c] will be answered. *)
Definition next_answer (c : call) (w : world) : option exn :=
  default None (head (script c w)).

(** The events a run added to the trace of [w]. *)
Definition new_events (w w' : world) : list event :=
  drop (length (trace w)) (trace w').

(** The attributes [__init__] leaves on an instance. *)
Record constructed (self : obj) (ip cf ct tcp_port udp_port timeout : value) : Prop := {
  c_tcp_port : self !! "tcp_port" = Some tcp_port;
  c_addr : self !! "addr" = Some (VPair ip udp_port);
  c_sock : self !! "sock" = Some (VSock SOCK_DGRAM);
  c_command : self !! "command" =
    Some (VBytes [Byte.x12; Byte.x34; Byte.x00; Byte.x02; Byte.x00; Byte.x00; Byte.x00; Byte.x01]);
  c_counts_per_force : self !! "counts_per_force" = Some cf;
  c_counts_per_torque : self !! "counts_per_torque" = Some ct;
  c_timeout : self !! "timeout" = Some timeout;
  c_no_ip : self !! "ip" = None
}.

(** The two request datagrams: ['>HHHH'] of (0x1234, 2, 0, 1) and of
    (0x1234, 0x0042, 0, 0). *)
Definition rdt_request : list byte :=
  [Byte.x12; Byte.x34; Byte.x00; Byte.x02; Byte.x00; Byte.x00; Byte.x00; Byte.x01].

Definition bias_request : list byte :=
  [Byte.x12; Byte.x34; Byte.x00; Byte.x42; Byte.x00; Byte.x00; Byte.x00; Byte.x00].


Definition receives (evs : list event) : list nat :=
  omap (fun ev => match ev with ERecvFrom n => Some n | _ => None end) evs.

Definition int32 (z : Z) : Prop := -2147483648 <= z <= 2147483647.


(** A scale factor that is the number zero: [0], [0.0] or [-0.0]. *)
Definition zero_scale (v : value) : Prop :=
  match v with
  | VInt z => z = 0
  | VFloat f => float_is_zero f = true
  | _ => False
  end.

(** ** A bench: one sensor in a world where nothing is scripted *)

(** Before [__init__]: no socket yet, every call will go through, no
    datagram will come. *)
Definition quiet : world := World false [] [] [] [] [] [] [] [] [].

(** A response datagram: twelve header bytes and the counts as ['>6i']. *)
Definition rdt_response (counts : list Z) : list byte :=
  replicate 12 Byte.x00 ++ flat_map (be_bytes 4) counts.

(** [ATISensor("192.168.1.1", cf, ct)] built in the quiet world. *)
Definition bench (cf ct : value) : outcome obj * world :=
  __init__ (VStr "192.168.1.1") cf ct default_tcp_port default_udp_port default_timeout quiet.

Definition bench_sensor (cf ct : value) : obj :=
  match fst (bench cf ct) with Ok self => self | _ => ∅ end.

(** The world after [__init__], with the datagrams [ds] on their way. *)
Definition bench_world (ds : list (list byte)) : world :=
  set_recvfrom_script (Datagram <$> ds) (snd (bench VNone VNone)).

(** The bytes a stream delivers before its first error. *)
Fixpoint delivered (s : list tcp_event) : list byte :=
  match s with
  | Segment b bs :: s' => b :: bs ++ delivered s'
  | _ => []
  end.

(** A stream on which every [recv] succeeds until the peer closes. *)
Definition closes_cleanly (s : list tcp_event) : Prop :=
  Forall (fun ev => match ev with Segment _ _ => True | RecvRaises _ => False end) s.

(** The attributes [read_calibration_info] reads. *)
Definition calibration_ready (self : obj) (timeout ip tcp_port : value) : Prop :=
  self !! "timeout" = Some timeout ∧ self !! "ip" = Some ip ∧
  self !! "tcp_port" = Some tcp_port.

(** The two tables of [describe_units], as the source lists them. *)
Definition force_unit_names : list (Z * string) :=
  [(1, "Pound"); (2, "Newton"); (3, "Kilopound"); (4, "Kilonewton");
   (5, "Kilogram"); (6, "Gram")].

Definition torque_unit_names : list (Z * string) :=
  [(1, "Pound-inch"); (2, "Pound-foot"); (3, "Newton-meter"); (4, "Newton-millimeter");
   (5, "Kilogram-centimeter"); (6, "Kilonewton-meter")].

(** The bench sensor after the caller has set [sensor.ip] by hand. *)
Definition ready_sensor : obj := <["ip" := VStr "192.168.1.1"]> (bench_sensor VNone VNone).

(** The world after [__init__] in which the next connection delivers [s]
    and is then closed by the peer. *)
Definition calibration_world (s : list tcp_event) : world :=
  set_tcp [s] [] (bench_world []).

(** A calibration response with the given header, unit codes 2 and 3,
    1000000 counts per force, 1000 per torque, scale factors 1..6. *)
Definition calibration_response (header : Z) : list byte :=
  be_bytes 2 header ++ be_bytes 1 2 ++ be_bytes 1 3 ++ be_bytes 4 1000000 ++
  be_bytes 4 1000 ++ flat_map (be_bytes 2) [1; 2; 3; 4; 5; 6].

(** The stream that delivers the non-empty [chunks] one segment each. *)
Definition segments (chunks : list (list byte)) : list tcp_event :=
  omap (fun c => match c with b :: bs => Some (Segment b bs) | [] => None end) chunks.

(** A scale factor that is a number other than zero (infinities and NaN
    included). *)
Definition nonzero_scale (v : value) : Prop :=
  match v with
  | VInt z => z ≠ 0
  | VFloat f => float_is_zero f = false
  | _ => False
  end.

(** A value that is an [int] or a [float]. *)
Definition is_number (v : value) : Prop :=
  match v with
  | VInt _ | VFloat _ => True
  | _ => False
  end.

(** A [recv] call asking for between 1 and [len] bytes. *)
Definition is_recv (len : nat) (ev : event) : Prop :=
  ∃ n, ev = ERecv n ∧ (1 <= n <= len)%nat.

(** The world [w] with another state of the datagram socket: open or
    closed, other datagrams on their way, other answers to [sendto]. *)
Definition datagram_side (b : bool) (q : list udp_reply) (ss : list (option exn))
    (w : world) : world :=
  World b (socket_script w) (settimeout_script w) ss (connect_script w)
    (sendall_script w) q (tcp_streams w) (tcp_in w) (trace w).

(** A computation that neither reads nor writes the datagram side. *)
Definition ignores_datagrams {A} (m : M A) : Prop :=
  ∀ b q ss w, m (datagram_side b q ss w) = (fst (m w), datagram_side b q ss (snd (m w))).

(** * Verification *)

(** ** Running the monad *)

Lemma bind_run {A B} (m : M A) (k : A -> M B) (w : world) :
  (m ≫= k) w =
  match m w with
  | (Ok a, w') => k a w'
  | (Raise e, w') => (Raise e, w')
  | (Blocks, w') => (Blocks, w')
  end.
Proof. reflexivity. Qed.

Lemma trace_set_script c s w : trace (set_script c s w) = trace w.
Proof. by destruct c. Qed.

Lemma udp_open_set_script c s w : udp_open (set_script c s w) = udp_open w.
Proof. by destruct c. Qed.

Lemma init_constructed ip cf ct tp up to w0 self w1 :
  __init__ ip cf ct tp up to w0 = (Ok self, w1) ->
  constructed self ip cf ct tp up to ∧ udp_open w1 = true.
Proof.
  unfold __init__, socket_socket, emit, modify, answer, lift.
  rewrite !bind_run. cbn.
  destruct (socket_script w0) as [|[e|] s]; cbn; intros [= <- <-]; split; try done;
    split; reflexivity.
Qed.

Lemma run_ret {A} (a : A) (w : world) : (mret a : M A) w = (Ok a, w).
Proof. reflexivity. Qed.

Lemma run_raise {A} (e : exn) (w : world) : (raise e : M A) w = (Raise e, w).
Proof. reflexivity. Qed.

Lemma run_lift {A} (r : outcome A) (w : world) : lift r w = (r, w).
Proof. reflexivity. Qed.

Lemma run_modify f (w : world) : modify f w = (Ok tt, f w).
Proof. reflexivity. Qed.

Lemma run_emit ev (w : world) : emit ev w = (Ok tt, log ev w).
Proof. reflexivity. Qed.

Lemma answer_run c w :
  answer c w =
  (match next_answer c w with None => Ok tt | Some e => Raise e end,
   set_script c (tail (script c w)) w).
Proof.
  unfold answer, next_answer.
  destruct (script c w) as [|[e|] s] eqn:E; cbn; try done.
  by destruct c, w; cbn in *; subst.
Qed.

Lemma next_answer_log c ev w : next_answer c (log ev w) = next_answer c w.
Proof. by destruct c. Qed.

Lemma next_answer_set_script_ne c c' s w :
  c ≠ c' -> next_answer c (set_script c' s w) = next_answer c w.
Proof. by destruct c, c'. Qed.

Lemma next_answer_set_tcp c a b w : next_answer c (set_tcp a b w) = next_answer c w.
Proof. by destruct c. Qed.

Lemma next_answer_set_udp_open c b w : next_answer c (set_udp_open b w) = next_answer c w.
Proof. by destruct c. Qed.

Lemma trace_log ev w : trace (log ev w) = trace w ++ [ev].
Proof. reflexivity. Qed.

Lemma new_events_app w w' evs : trace w' = trace w ++ evs -> new_events w w' = evs.
Proof. unfold new_events. intros ->. by rewrite drop_app_length. Qed.

(** One step of a run: a bind, a primitive, or a redex it leaves. *)
Ltac mrun :=
  repeat first
    [ rewrite bind_run | rewrite run_ret | rewrite run_raise | rewrite run_lift
    | rewrite run_emit | rewrite run_modify | rewrite answer_run
    | rewrite next_answer_log | rewrite next_answer_set_script_ne by discriminate
    | rewrite next_answer_set_tcp | rewrite next_answer_set_udp_open
    | progress cbv beta iota zeta | progress cbn [fst snd] ].

(** The trace of the final world is the initial one followed by [evs]. *)
Ltac trace_is evs :=
  rewrite (new_events_app _ _ evs);
  [| rewrite ?trace_set_script; cbn; rewrite ?trace_set_script; cbn; by rewrite <- ?app_assoc].

(** ** The attribute [__init__] never sets *)


(** ** Bytes and big-endian integers *)

Lemma byte_to_Z_range b : 0 <= byte_to_Z b < 256.
Proof.
  unfold byte_to_Z. pose proof (Byte.to_N_bounded b) as H.
  apply N2Z.inj_le in H. change (Z.of_N 255) with 255 in H.
  pose proof (N2Z.is_nonneg (Byte.to_N b)). lia.
Qed.

Lemma byte_to_Z_to_byte z : byte_to_Z (Z_to_byte z) = Z.land z 255.
Proof.
  unfold byte_to_Z, Z_to_byte.
  assert (Hr : 0 <= Z.land z 255 < 256).
  { change 255 with (Z.ones 8). rewrite Z.land_ones by lia.
    change (2 ^ 8) with 256. apply Z.mod_pos_bound. lia. }
  destruct (Byte.of_N (Z.to_N (Z.land z 255))) as [b|] eqn:E.
  - apply Byte.to_of_N in E. cbn. rewrite E. rewrite Z2N.id; lia.
  - apply Byte.of_N_None_iff in E. lia.
Qed.

Lemma lor_shiftl_8 x a : 0 <= a < 256 -> Z.lor (Z.shiftl x 8) a = x * 256 + a.
Proof.
  intros Ha.
  assert (Hl : Z.land (Z.shiftl x 8) a = 0).
  { apply Z.bits_inj'. intros n Hn.
    rewrite Z.land_spec, Z.bits_0.
    destruct (Z.lt_ge_cases n 8) as [Hlt|Hge].
    - rewrite Z.shiftl_spec_low; auto.
    - destruct (Z.eq_dec a 0) as [->|Hne]; [by rewrite Z.bits_0, andb_false_r|].
      rewrite (Z.bits_above_log2 a n); [by rewrite andb_false_r|lia|].
      assert (Z.log2 a < 8); [|lia].
      apply Z.log2_lt_pow2; lia. }
  pose proof (Zbitwise.Z.add_lor_land (Z.shiftl x 8) a) as H.
  pose proof (Z.shiftl_mul_pow2 x 8) as Hs. change (2 ^ 8) with 256 in Hs. lia.
Qed.

Lemma be_uint_fold bs acc :
  fold_left (fun a b => Z.lor (Z.shiftl a 8) (byte_to_Z b)) bs acc =
  acc * 2 ^ (8 * Z.of_nat (length bs)) + be_uint bs
  ∧ 0 <= be_uint bs < 2 ^ (8 * Z.of_nat (length bs)).
Proof.
  unfold be_uint. revert acc. induction bs as [|b bs IH]; intros acc.
  - cbn. lia.
  - cbn [fold_left length].
    destruct (IH (Z.lor (Z.shiftl acc 8) (byte_to_Z b))) as [-> Hr].
    destruct (IH (Z.lor (Z.shiftl 0 8) (byte_to_Z b))) as [-> _].
    pose proof (byte_to_Z_range b) as Hb.
    rewrite !lor_shiftl_8 by done.
    replace (8 * Z.of_nat (S (length bs))) with (8 * Z.of_nat (length bs) + 8) by lia.
    rewrite Z.pow_add_r by lia. change (2 ^ 8) with 256.
    set (p := 2 ^ (8 * Z.of_nat (length bs))) in *.
    assert (0 < p) by (apply Z.pow_pos_nonneg; lia).
    split; nia.
Qed.

Lemma be_uint_range bs : 0 <= be_uint bs < 2 ^ (8 * Z.of_nat (length bs)).
Proof. apply (be_uint_fold bs 0). Qed.

Lemma be_int_range bs :
  bs ≠ [] ->
  - 2 ^ (8 * Z.of_nat (length bs) - 1) <= be_int bs < 2 ^ (8 * Z.of_nat (length bs) - 1).
Proof.
  intros Hne. unfold be_int.
  pose proof (be_uint_range bs) as Hu.
  assert (Hw : 0 < 8 * Z.of_nat (length bs)) by (destruct bs; [done|cbn [length]; lia]).
  set (w := 8 * Z.of_nat (length bs)) in *.
  assert (Hp : 2 ^ w = 2 * 2 ^ (w - 1)).
  { replace w with (w - 1 + 1) at 1 by lia. rewrite Z.pow_add_r by lia. lia. }
  destruct (Z.ltb_spec 0 w); [|lia]. cbn [andb].
  destruct (Z.leb_spec (2 ^ (w - 1)) (be_uint bs)); lia.
Qed.

Lemma be_uint_be_bytes n z : be_uint (be_bytes n z) = z mod 2 ^ (8 * Z.of_nat n).
Proof.
  induction n as [|n IH].
  - cbn. by rewrite Z.mod_1_r.
  - cbn [be_bytes]. unfold be_uint. cbn [fold_left].
    destruct (be_uint_fold (be_bytes n z)
                (Z.lor (Z.shiftl 0 8) (byte_to_Z (Z_to_byte (Z.shiftr z (8 * Z.of_nat n))))))
      as [-> _].
    rewrite IH.
    assert (Hlen : length (be_bytes n z) = n) by (clear; induction n; cbn; congruence).
    rewrite Hlen, lor_shiftl_8 by apply byte_to_Z_range.
    rewrite byte_to_Z_to_byte. change 255 with (Z.ones 8).
    rewrite Z.land_ones, Z.shiftr_div_pow2 by lia.
    replace (8 * Z.of_nat (S n)) with (8 * Z.of_nat n + 8) by lia.
    rewrite (Z.pow_add_r 2 (8 * Z.of_nat n) 8) by lia.
    assert (0 < 2 ^ (8 * Z.of_nat n)) by (apply Z.pow_pos_nonneg; lia).
    rewrite (Z.rem_mul_r z (2 ^ (8 * Z.of_nat n)) (2 ^ 8)) by lia.
    lia.
Qed.

Lemma be_int_be_bytes n z :
  (0 < n)%nat ->
  - 2 ^ (8 * Z.of_nat n - 1) <= z < 2 ^ (8 * Z.of_nat n - 1) ->
  be_int (be_bytes n z) = z.
Proof.
  intros Hn Hz. unfold be_int. rewrite be_uint_be_bytes.
  assert (Hlen : length (be_bytes n z) = n) by (clear; induction n; cbn; congruence).
  rewrite Hlen.
  set (w := 8 * Z.of_nat n) in *.
  assert (Hw : 0 < w) by lia.
  assert (Hp : 2 ^ w = 2 * 2 ^ (w - 1)).
  { replace w with (w - 1 + 1) at 1 by lia. rewrite Z.pow_add_r by lia. lia. }
  assert (0 < 2 ^ (w - 1)) by (apply Z.pow_pos_nonneg; lia).
  destruct (Z.ltb_spec 0 w); [|lia]. cbn [andb].
  destruct (Z.lt_ge_cases z 0).
  - replace (z mod 2 ^ w) with (z + 2 ^ w).
    + destruct (Z.leb_spec (2 ^ (w - 1)) (z + 2 ^ w)); lia.
    + apply Z.mod_unique with (-1); lia.
  - rewrite Z.mod_small by lia.
    destruct (Z.leb_spec (2 ^ (w - 1)) z); lia.
Qed.

(** ** The datagram methods, step by step *)

Section Datagram.
Context {self : obj} {ip cf ct tp up to : value}.
Hypothesis Hc : constructed self ip cf ct tp up to.

Lemma read_raw_counts_run w :
  read_raw_counts self w =
  let w1 := log (ESendTo rdt_request (VPair ip up)) w in
  if udp_open w then
    let w2 := set_script CSendTo (tail (sendto_script w)) w1 in
    match next_answer CSendTo w with
    | Some e => (Raise e, w2)
    | None =>
        let w3 := log (ERecvFrom 36) w2 in
        match recvfrom_script w with
        | [] => (Blocks, w3)
        | RecvfromRaises e :: s => (Raise e, set_recvfrom_script s w3)
        | Datagram d :: s =>
            (if decide (length (take 36 d) ≠ 36%nat)
             then Raise (RuntimeError "Invalid ATI response length")
             else struct_unpack fmt_6i (slice 12 36 (take 36 d)),
             set_recvfrom_script s w3)
        end
    end
  else (Raise bad_file_descriptor, w1).
Proof.
  unfold read_raw_counts, getattr.
  rewrite (c_sock _ _ _ _ _ _ _ Hc), (c_command _ _ _ _ _ _ _ Hc), (c_addr _ _ _ _ _ _ _ Hc).
  unfold sock_sendto, sock_recvfrom, on_open_udp. mrun.
  change (udp_open (log _ w)) with (udp_open w).
  destruct (udp_open w) eqn:Ho; mrun; [|done].
  destruct (next_answer CSendTo w) as [e|]; mrun; [done|].
  change (udp_open (log _ (set_script _ _ (log _ w)))) with (udp_open w). rewrite Ho.
  change (recvfrom_script (log _ (set_script _ _ (log _ w)))) with (recvfrom_script w).
  destruct (recvfrom_script w) as [|[d|e] s]; mrun; try done.
  by destruct (decide (length (take 36 d) ≠ 36%nat)); mrun.
Qed.

Lemma bias_current_value_run w :
  bias_current_value self w =
  let w1 := log (ESendTo bias_request (VPair ip up)) w in
  let w2 := if udp_open w then set_script CSendTo (tail (sendto_script w)) w1 else w1 in
  (Ok tt,
   log (EPrint
          match (if udp_open w then next_answer CSendTo w else Some bad_file_descriptor) with
          | None => "[Bias] Sent software bias command to ATI device."
          | Some e => "[Bias Error] " +:+ exn_str e
          end) w2).
Proof.
  unfold bias_current_value, getattr, try_except.
  rewrite (c_sock _ _ _ _ _ _ _ Hc), (c_addr _ _ _ _ _ _ _ Hc).
  change (struct_pack fmt_HHHH [4660; 66; 0; 0]) with (Ok bias_request).
  unfold sock_sendto, on_open_udp, print. mrun.
  change (udp_open (log _ w)) with (udp_open w).
  destruct (udp_open w) eqn:Ho; mrun; [|done].
  by destruct (next_answer CSendTo w) as [e|]; mrun.
Qed.

Lemma close_run w :
  close self w = (Ok tt, set_udp_open false (log (EClose SOCK_DGRAM) w)).
Proof.
  unfold close, getattr. rewrite (c_sock _ _ _ _ _ _ _ Hc).
  unfold sock_close. by mrun.
Qed.
End Datagram.

(** ** True division *)

Lemma float_overflow_threshold_large : 2 ^ 31 < float_overflow_threshold.
Proof. by vm_compute. Qed.



Lemma truediv_zero r c :
  int32 r -> zero_scale c -> ∃ msg, truediv r c = Raise (ZeroDivisionError msg).
Proof.
  intros Hr Hc. pose proof float_overflow_threshold_large as Ht.
  change (2 ^ 31) with 2147483648 in Ht. unfold int32 in Hr.
  destruct c as [|z|f| | | | |]; try done; unfold zero_scale in Hc; unfold truediv.
  - subst z. cbn. eauto.
  - destruct (Z.leb_spec float_overflow_threshold (Z.abs r)); [lia|].
    rewrite Hc. eauto.
Qed.


(** ** What [read_raw_counts] returns *)

Lemma be_int_4 a b c d : int32 (be_int [a; b; c; d]).
Proof.
  pose proof (be_int_range [a; b; c; d]) as H.
  cbn [length] in H. change (2 ^ (8 * Z.of_nat 4 - 1)) with 2147483648 in H.
  unfold int32. specialize (H ltac:(done)). lia.
Qed.

Lemma unpack_6i_counts bs :
  length bs = 24%nat ->
  ∃ r0 r1 r2 r3 r4 r5,
    unpack_fields fmt_6i bs = [r0; r1; r2; r3; r4; r5] ∧
    int32 r0 ∧ int32 r1 ∧ int32 r2 ∧ int32 r3 ∧ int32 r4 ∧ int32 r5.
Proof.
  intros Hlen.
  do 24 (destruct bs as [|? bs]; [cbn in Hlen; lia|]).
  destruct bs; [|cbn in Hlen; lia].
  cbn [unpack_fields fmt_6i replicate unpack_one take drop fmt_size].
  do 6 eexists. split; [reflexivity|].
  repeat (split; [apply be_int_4|]). apply be_int_4.
Qed.

Lemma read_raw_counts_counts self ip cf ct tp up to w R w' :
  constructed self ip cf ct tp up to ->
  read_raw_counts self w = (Ok R, w') ->
  ∃ r0 r1 r2 r3 r4 r5,
    R = [r0; r1; r2; r3; r4; r5] ∧
    int32 r0 ∧ int32 r1 ∧ int32 r2 ∧ int32 r3 ∧ int32 r4 ∧ int32 r5.
Proof.
  intros Hc. rewrite (read_raw_counts_run Hc). cbv zeta.
  destruct (udp_open w); [|done].
  destruct (next_answer CSendTo w); [done|].
  destruct (recvfrom_script w) as [|[d|e] s]; try done.
  destruct (decide (length (take 36 d) ≠ 36%nat)) as [|Hlen%dec_stable]; [done|].
  unfold struct_unpack.
  destruct (decide _) as [Hs|]; [|done].
  intros [= <- _]. by apply unpack_6i_counts.
Qed.

(** ** Reading and scaling *)

Lemma read_ft_run self ip cf ct tp up to w r0 r1 r2 r3 r4 r5 w' :
  constructed self ip cf ct tp up to ->
  read_raw_counts self w = (Ok [r0; r1; r2; r3; r4; r5], w') ->
  read_ft self w =
  (fx ← truediv r0 cf; fy ← truediv r1 cf; fz ← truediv r2 cf;
   tx ← truediv r3 ct; ty ← truediv r4 ct; tz ← truediv r5 ct;
   Ok (fx, fy, fz, tx, ty, tz), w').
Proof.
  intros Hc Hraw. unfold read_ft, getattr, index.
  rewrite (c_counts_per_force _ _ _ _ _ _ _ Hc), (c_counts_per_torque _ _ _ _ _ _ _ Hc).
  rewrite bind_run, Hraw. cbn [lookup list_lookup].
  mrun.
  destruct (truediv r0 cf); mrun; try done.
  destruct (truediv r1 cf); mrun; try done.
  destruct (truediv r2 cf); mrun; try done.
  destruct (truediv r3 ct); mrun; try done.
  destruct (truediv r4 ct); mrun; try done.
  destruct (truediv r5 ct); mrun; try done.
Qed.







(** ** The response datagram *)

Lemma read_raw_counts_datagram self ip cf ct tp up to w d rest :
  constructed self ip cf ct tp up to ->
  udp_open w = true -> next_answer CSendTo w = None ->
  recvfrom_script w = Datagram d :: rest ->
  fst (read_raw_counts self w) =
    if decide (36 <= length d)%nat
    then Ok [be_int (slice 12 16 d); be_int (slice 16 20 d); be_int (slice 20 24 d);
             be_int (slice 24 28 d); be_int (slice 28 32 d); be_int (slice 32 36 d)]
    else Raise (RuntimeError "Invalid ATI response length").
Proof.
  intros Hc Ho Hs Hd.
  rewrite (read_raw_counts_run Hc). cbv zeta. rewrite Ho, Hs, Hd. cbn [fst].
  rewrite length_take.
  destruct (decide (36 <= length d)%nat) as [Hlen|Hlen].
  - destruct (decide _) as [|_]; [lia|].
    do 36 (destruct d as [|? d]; [cbn in Hlen; lia|]).
    reflexivity.
  - destruct (decide _) as [|]; [done|lia].
Qed.

(** X1. Every vector of six signed 32-bit counts is the reading of some
    response: the datagram that carries it after twelve header bytes. *)
Lemma read_raw_counts_of_response self ip cf ct tp up to w rest r0 r1 r2 r3 r4 r5 :
  constructed self ip cf ct tp up to ->
  udp_open w = true -> next_answer CSendTo w = None ->
  Forall int32 [r0; r1; r2; r3; r4; r5] ->
  recvfrom_script w = Datagram (rdt_response [r0; r1; r2; r3; r4; r5]) :: rest ->
  fst (read_raw_counts self w) = Ok [r0; r1; r2; r3; r4; r5].
Proof.
  intros Hc Ho Hs Hr Hd.
  rewrite (read_raw_counts_datagram _ _ _ _ _ _ _ _ _ _ Hc Ho Hs Hd).
  destruct (decide _) as [_|Hlen]; [|cbn in Hlen; lia].
  assert (Hrt : ∀ r, int32 r -> be_int (be_bytes 4 r) = r).
  { intros r Hr32. apply be_int_be_bytes; [lia|].
    change (2 ^ (8 * Z.of_nat 4 - 1)) with 2147483648. unfold int32 in Hr32. lia. }
  repeat match goal with
         | H : Forall _ (_ :: _) |- _ => apply Forall_cons in H as [? H]
         end.
  change (Ok [be_int (be_bytes 4 r0); be_int (be_bytes 4 r1); be_int (be_bytes 4 r2);
              be_int (be_bytes 4 r3); be_int (be_bytes 4 r4); be_int (be_bytes 4 r5)]
          = Ok [r0; r1; r2; r3; r4; r5]).
  by rewrite !Hrt.
Qed.

(** C2, as the code has it.  [recvfrom(36)] hands over at most the first
    36 bytes of the response datagram, so the length check sees 36 bytes
    exactly when the datagram has at least 36: then the reading is the six
    signed big-endian 32-bit integers at bytes 12..36, in the order Fx, Fy,
    Fz, Tx, Ty, Tz, decoded from the first 36 bytes.  A shorter datagram
    raises [RuntimeError("Invalid ATI response length")] and nothing is
    decoded. *)
Theorem read_raw_counts_length ip cf ct tp up to w0 self w1 w d rest :
  __init__ ip cf ct tp up to w0 = (Ok self, w1) ->
  udp_open w = true -> next_answer CSendTo w = None ->
  recvfrom_script w = Datagram d :: rest ->
  fst (read_raw_counts self w) =
    if decide (36 <= length d)%nat
    then Ok [be_int (slice 12 16 d); be_int (slice 16 20 d); be_int (slice 20 24 d);
             be_int (slice 24 28 d); be_int (slice 28 32 d); be_int (slice 32 36 d)]
    else Raise (RuntimeError "Invalid ATI response length").
Proof.
  intros [Hc _]%init_constructed. by apply (read_raw_counts_datagram _ _ _ _ _ _ _ _ _ _ Hc).
Qed.

Lemma read_raw_counts_length_witness :
  fst (read_raw_counts (bench_sensor VNone VNone)
         (bench_world [rdt_response [1; -2; 3; -4; 5; -6]]))
  = Ok [1; -2; 3; -4; 5; -6].
Proof.
  rewrite (read_raw_counts_length (VStr "192.168.1.1") VNone VNone
             default_tcp_port default_udp_port default_timeout quiet
             (bench_sensor VNone VNone) (snd (bench VNone VNone))
             (bench_world [rdt_response [1; -2; 3; -4; 5; -6]])
             (rdt_response [1; -2; 3; -4; 5; -6]) []
             ltac:(vm_compute; reflexivity) eq_refl eq_refl eq_refl).
  vm_compute. reflexivity.
Defined.

(** C2 as stated fails for a longer datagram: 37 bytes, the counts
    (1, 2, 3, 4, 5, 6) followed by one more byte, raise nothing and are
    decoded. *)
Lemma read_raw_counts_long_datagram :
  length (rdt_response [1; 2; 3; 4; 5; 6] ++ [Byte.xff]) = 37%nat ∧
  fst (read_raw_counts (bench_sensor VNone VNone)
         (bench_world [rdt_response [1; 2; 3; 4; 5; 6] ++ [Byte.xff]]))
  = Ok [1; 2; 3; 4; 5; 6].
Proof. split; vm_compute; reflexivity. Qed.

(** ** One exchange per call *)


(** ** The bias command *)

(** C8. [bias_current_value] returns normally in every world: whatever
    exception the send raises, it is printed after ["[Bias Error] "] and
    not propagated; no response is read. *)
Theorem bias_current_value_never_raises ip cf ct tp up to w0 self w1 w :
  __init__ ip cf ct tp up to w0 = (Ok self, w1) ->
  fst (bias_current_value self w) = Ok tt ∧
  receives (new_events w (snd (bias_current_value self w))) = [] ∧
  (∀ e, udp_open w = true -> next_answer CSendTo w = Some e ->
     new_events w (snd (bias_current_value self w)) =
       [ESendTo [Byte.x12; Byte.x34; Byte.x00; Byte.x42; Byte.x00; Byte.x00; Byte.x00; Byte.x00]
          (VPair ip up);
        EPrint ("[Bias Error] " +:+ exn_str e)]) ∧
  (udp_open w = true -> next_answer CSendTo w = None ->
     new_events w (snd (bias_current_value self w)) =
       [ESendTo [Byte.x12; Byte.x34; Byte.x00; Byte.x42; Byte.x00; Byte.x00; Byte.x00; Byte.x00]
          (VPair ip up);
        EPrint "[Bias] Sent software bias command to ATI device."]).
Proof.
  intros Hinit.
  destruct (init_constructed _ _ _ _ _ _ _ _ _ Hinit) as [Hc _].
  rewrite (bias_current_value_run Hc). cbv zeta. cbn [fst snd].
  split; [done|]. split; [|split].
  - destruct (udp_open w); [destruct (next_answer CSendTo w)|];
      match goal with
      | |- context [EPrint ?s] =>
          trace_is [ESendTo [Byte.x12; Byte.x34; Byte.x00; Byte.x42; Byte.x00; Byte.x00;
                             Byte.x00; Byte.x00] (VPair ip up); EPrint s]
      end; done.
  - intros e -> ->.
    by trace_is [ESendTo [Byte.x12; Byte.x34; Byte.x00; Byte.x42; Byte.x00; Byte.x00;
                          Byte.x00; Byte.x00] (VPair ip up);
                 EPrint ("[Bias Error] " +:+ exn_str e)].
  - intros -> ->.
    by trace_is [ESendTo [Byte.x12; Byte.x34; Byte.x00; Byte.x42; Byte.x00; Byte.x00;
                          Byte.x00; Byte.x00] (VPair ip up);
                 EPrint "[Bias] Sent software bias command to ATI device."].
Qed.

Lemma bias_current_value_never_raises_witness :
  let w := set_script CSendTo [Some (OSError "[Errno 101] Network is unreachable")]
             (bench_world []) in
  fst (bias_current_value (bench_sensor VNone VNone) w) = Ok tt ∧
  new_events w (snd (bias_current_value (bench_sensor VNone VNone) w)) =
    [ESendTo [Byte.x12; Byte.x34; Byte.x00; Byte.x42; Byte.x00; Byte.x00; Byte.x00; Byte.x00]
       (VPair (VStr "192.168.1.1") default_udp_port);
     EPrint "[Bias Error] [Errno 101] Network is unreachable"].
Proof.
  intros w.
  pose proof (bias_current_value_never_raises (VStr "192.168.1.1") VNone VNone
                default_tcp_port default_udp_port default_timeout quiet
                (bench_sensor VNone VNone) (snd (bench VNone VNone)) w
                ltac:(vm_compute; reflexivity)) as (Hok & _ & Hfail & _).
  split; [exact Hok|].
  exact (Hfail (OSError "[Errno 101] Network is unreachable") eq_refl eq_refl).
Defined.

(** ** After [close] *)

(** C9, as the code has it.  [close()] succeeds in every world, closed or
    not, and leaves the socket closed.  There is no closed state of the
    client's own: on a closed socket [read_raw_counts] and [read_ft] fail
    with the library's [OSError] for a bad file descriptor, raised by
    [sendto], and [bias_current_value] catches that same error, prints it
    and returns normally; the socket stays closed. *)
Theorem closed_socket_calls ip cf ct tp up to w0 self w1 w :
  __init__ ip cf ct tp up to w0 = (Ok self, w1) ->
  (fst (close self w) = Ok tt ∧ udp_open (snd (close self w)) = false) ∧
  (udp_open w = false ->
   (fst (read_raw_counts self w) = Raise bad_file_descriptor ∧
    udp_open (snd (read_raw_counts self w)) = false) ∧
   (fst (read_ft self w) = Raise bad_file_descriptor ∧
    udp_open (snd (read_ft self w)) = false) ∧
   (fst (bias_current_value self w) = Ok tt ∧
    udp_open (snd (bias_current_value self w)) = false ∧
    new_events w (snd (bias_current_value self w)) =
      [ESendTo [Byte.x12; Byte.x34; Byte.x00; Byte.x42; Byte.x00; Byte.x00; Byte.x00; Byte.x00]
         (VPair ip up);
       EPrint "[Bias Error] [Errno 9] Bad file descriptor"])).
Proof.
  intros [Hc _]%init_constructed. split.
  - by rewrite (close_run Hc).
  - intros Ho.
    assert (Hraw : read_raw_counts self w =
      (Raise bad_file_descriptor,
       log (ESendTo [Byte.x12; Byte.x34; Byte.x00; Byte.x02; Byte.x00; Byte.x00; Byte.x00;
                     Byte.x01] (VPair ip up)) w)).
    { rewrite (read_raw_counts_run Hc). cbv zeta. by rewrite Ho. }
    split; [by rewrite Hraw|]. split.
    + unfold read_ft. rewrite bind_run, Hraw. done.
    + rewrite (bias_current_value_run Hc). cbv zeta. rewrite Ho. cbn [fst snd].
      split; [done|]. split; [done|].
      by trace_is [ESendTo [Byte.x12; Byte.x34; Byte.x00; Byte.x42; Byte.x00; Byte.x00;
                            Byte.x00; Byte.x00] (VPair ip up);
                   EPrint "[Bias Error] [Errno 9] Bad file descriptor"].
Qed.

Lemma closed_socket_calls_witness :
  let w := snd (close (bench_sensor VNone VNone) (bench_world [])) in
  fst (close (bench_sensor VNone VNone) w) = Ok tt ∧
  fst (read_raw_counts (bench_sensor VNone VNone) w) = Raise bad_file_descriptor.
Proof.
  intros w.
  pose proof (closed_socket_calls (VStr "192.168.1.1") VNone VNone
                default_tcp_port default_udp_port default_timeout quiet
                (bench_sensor VNone VNone) (snd (bench VNone VNone)) w
                ltac:(vm_compute; reflexivity)) as [[Hclose _] Hafter].
  split; [exact Hclose|].
  exact (proj1 (proj1 (Hafter eq_refl))).
Defined.

(** C9 as stated fails: after [close()], [bias_current_value] does not
    fail at all, and [read_raw_counts] and [read_ft] fail with the
    transport layer's own error, [OSError: [Errno 9] Bad file descriptor]. *)
Lemma calls_after_close :
  let self := bench_sensor (VInt 1000000) (VInt 1000) in
  let w := snd (close self (bench_world [rdt_response [1; 2; 3; 4; 5; 6]])) in
  fst (bias_current_value self w) = Ok tt ∧
  fst (read_raw_counts self w) = Raise (OSError "[Errno 9] Bad file descriptor") ∧
  fst (read_ft self w) = Raise (OSError "[Errno 9] Bad file descriptor").
Proof. repeat split; vm_compute; reflexivity. Qed.

(** ** The stream: [recv_all] *)

Lemma recv_all_loop_step sock len data w :
  recv_all_loop sock len data w =
  if decide (length data < len)%nat then
    match sock_recv sock (len - length data) w with
    | (Ok [], w') => (Ok data, w')
    | (Ok (b :: packet), w') => recv_all_loop sock len (data ++ b :: packet) w'
    | (Raise e, w') => (Raise e, w')
    | (Blocks, w') => (Blocks, w')
    end
  else (Ok data, w).
Proof.
  funelim (recv_all_loop sock len data w); clear Heqcall.
  - by rewrite Heq.
  - by rewrite Heq0, Heq.
  - by rewrite Heq0, Heq.
  - by rewrite Heq0, Heq.
  - by rewrite Heq0, Heq.
Qed.

Lemma sock_recv_run sock n w :
  sock_recv sock n w =
  let w1 := log (ERecv n) w in
  match tcp_in w with
  | [] => (Ok [], w1)
  | RecvRaises e :: rest => (Raise e, set_tcp (tcp_streams w) rest w1)
  | Segment b bs :: rest =>
      (Ok (take n (b :: bs)),
       set_tcp (tcp_streams w)
         match drop n (b :: bs) with
         | [] => rest
         | b' :: bs' => Segment b' bs' :: rest
         end w1)
  end.
Proof. unfold sock_recv. by mrun. Qed.

(** The loop gathers the stream's bytes, however they are cut into
    segments, until [len] bytes are there or the peer has closed. *)
Lemma recv_all_loop_delivers sock len s : ∀ data w,
  tcp_in w = s ->
  (length data <= len)%nat ->
  closes_cleanly s ∨ (len <= length data + length (delivered s))%nat ->
  fst (recv_all_loop sock len data w) = Ok (take len (data ++ delivered s)).
Proof.
  induction s as [|ev s IH]; intros data w Hin Hlen Hs;
    rewrite recv_all_loop_step, sock_recv_run, Hin; cbv zeta.
  - cbn [delivered]. rewrite app_nil_r, take_ge by done.
    by destruct (decide _).
  - destruct ev as [b bs|e].
    + destruct (decide (length data < len)%nat) as [Hlt|Hge].
      * destruct (len - length data)%nat as [|k] eqn:Hk; [lia|].
        cbn [take drop delivered].
        destruct (decide (length bs <= k)%nat) as [Hfit|Hcut].
        -- rewrite take_ge, drop_ge by done.
           rewrite IH; [by rewrite <- app_assoc| done | rewrite length_app; cbn; lia |].
           destruct Hs as [Hs|Hs].
           ++ left. by apply Forall_cons in Hs as [_ ?].
           ++ right. cbn [delivered length] in Hs.
              rewrite !length_app in *. cbn [length]. lia.
        -- rewrite recv_all_loop_step.
           destruct (decide _) as [Hlt'|_].
           { rewrite length_app in Hlt'. cbn [length] in Hlt'.
             rewrite length_take in Hlt'. lia. }
           cbn [fst]. f_equal.
           rewrite take_app, (take_ge data) by lia. f_equal.
           rewrite Hk. cbn [take]. f_equal.
           rewrite take_app_le by lia. done.
      * cbn [fst]. f_equal.
        rewrite take_app, (take_ge data) by lia.
        replace (len - length data)%nat with 0%nat by lia.
        by rewrite take_0, app_nil_r.
    + destruct Hs as [Hs|Hs]; [by apply Forall_cons in Hs as [[] _]|].
      cbn [delivered length] in Hs.
      destruct (decide _) as [|_]; [lia|].
      cbn [fst delivered]. by rewrite app_nil_r, take_ge by lia.
Qed.

Lemma recv_all_delivers sock len w :
  closes_cleanly (tcp_in w) ∨ (len <= length (delivered (tcp_in w)))%nat ->
  fst (recv_all sock len w) = Ok (take len (delivered (tcp_in w))).
Proof.
  intros Hs. unfold recv_all.
  rewrite (recv_all_loop_delivers sock len (tcp_in w)); cbn [length app]; try done; lia.
Qed.

(** ** The calibration query, once it gets to the stream *)

Lemma read_calibration_info_run self to ip tp w :
  calibration_ready self to ip tp ->
  next_answer CSocket w = None -> next_answer CSetTimeout w = None ->
  next_answer CConnect w = None -> next_answer CSendAll w = None ->
  closes_cleanly (default [] (head (tcp_streams w))) ∨
    (24 <= length (delivered (default [] (head (tcp_streams w)))))%nat ->
  fst (read_calibration_info self w) =
    let response := take 24 (delivered (default [] (head (tcp_streams w)))) in
    if decide (length response ≠ 24%nat)
    then Raise (RuntimeError ("Invalid response length: " +:+ str_nat (length response)))
    else
      match unpack_fields fmt_HBBII6H response with
      | header :: force_unit :: torque_unit :: cpf :: cpt :: scale_factors =>
          if decide (header ≠ 0x1234)
          then Raise (RuntimeError ("Invalid header: " +:+ hex header))
          else Ok (<["force_unit_code" := VInt force_unit]>
                  (<["torque_unit_code" := VInt torque_unit]>
                  (<["counts_per_force" := VInt cpf]>
                  (<["counts_per_torque" := VInt cpt]>
                  (<["scale_factors" := VList (VInt <$> scale_factors)]> ∅)))))
      | _ => Raise (ValueError "not enough values to unpack")
      end.
Proof.
  intros (Hto & Hip & Htp) Hsock Hst Hconn Hsend Hs.
  unfold read_calibration_info, socket_socket, sock_settimeout, sock_connect, sock_sendall,
    try_finally, getattr, sock_close.
  rewrite Hto, Hip, Htp.
  change (struct_pack fmt_B19x [1]) with (Ok (Byte.x01 :: replicate 19 Byte.x00)).
  mrun. rewrite Hsock. mrun. rewrite Hst. mrun. rewrite Hconn. mrun. rewrite Hsend. mrun.
  match goal with
  | |- context [recv_all ?sk 24 ?w5] =>
      pose proof (recv_all_delivers sk 24 w5) as Hrecv;
      destruct (recv_all sk 24 w5) as [r w6]
  end.
  cbn [tcp_in set_tcp log set_script tcp_streams fst] in Hrecv.
  specialize (Hrecv Hs). subst r. mrun.
  destruct (decide (length (take 24 _) ≠ 24%nat)) as [|Hlen%dec_stable]; mrun; [done|].
  unfold struct_unpack. destruct (decide _) as [_|Hne]; [|by rewrite Hlen in Hne].
  mrun.
  destruct (unpack_fields _ _) as [|header [|fu [|tu [|cpf [|cpt sf]]]]]; mrun; try done.
  destruct (decide (header ≠ 4660)); by mrun.
Qed.

(** C6. The response is gathered by [recv_all]: whatever the segments the
    stream arrives in, the loop returns its first 24 bytes, or all of them
    when the peer closes before.  When the peer closes with fewer than 24
    bytes delivered, [read_calibration_info] raises
    [RuntimeError("Invalid response length: n")], n the number of bytes
    received, and a call that returns a record has received 24. *)
Theorem short_read_is_an_error self to ip tp w s streams :
  calibration_ready self to ip tp ->
  next_answer CSocket w = None -> next_answer CSetTimeout w = None ->
  next_answer CConnect w = None -> next_answer CSendAll w = None ->
  tcp_streams w = s :: streams ->
  closes_cleanly s ->
  (∀ sock w', tcp_in w' = s ->
     fst (recv_all sock 24 w') = Ok (take 24 (delivered s))) ∧
  ((length (delivered s) < 24)%nat ->
   fst (read_calibration_info self w) =
     Raise (RuntimeError ("Invalid response length: " +:+ str_nat (length (delivered s))))) ∧
  (∀ info, fst (read_calibration_info self w) = Ok info ->
     (24 <= length (delivered s))%nat).
Proof.
  intros Hready Hsock Hst Hconn Hsend Hstreams Hs.
  pose proof (read_calibration_info_run self to ip tp w Hready Hsock Hst Hconn Hsend) as Hrun.
  rewrite Hstreams in Hrun. cbn [head default] in Hrun.
  specialize (Hrun (or_introl Hs)). cbv zeta in Hrun. change (id s) with s in Hrun.
  split; [|split].
  - intros sock w' Hin. rewrite recv_all_delivers; rewrite Hin; [done|by left].
  - intros Hshort. rewrite Hrun. clear Hrun. rewrite (take_ge (delivered s)) by lia.
    case_decide; [done|lia].
  - intros info. rewrite Hrun. clear Hrun.
    case_decide as Hlen; [discriminate|].
    intros _. rewrite length_take in Hlen. lia.
Qed.

Lemma be_uint_bound bs n :
  length bs = n -> 0 <= be_uint bs < 2 ^ (8 * Z.of_nat n).
Proof. intros <-. apply be_uint_range. Qed.

(** C5. A 24-byte calibration response is decoded big-endian into a
    16-bit header, an 8-bit force-unit code, an 8-bit torque-unit code,
    32-bit counts-per-force and counts-per-torque and six 16-bit scale
    factors; a header other than 0x1234 raises
    [RuntimeError("Invalid header: " + hex(header))], and the header 0x1234
    gives the record of the other fields. *)
Theorem calibration_header_checked self to ip tp w s streams :
  calibration_ready self to ip tp ->
  next_answer CSocket w = None -> next_answer CSetTimeout w = None ->
  next_answer CConnect w = None -> next_answer CSendAll w = None ->
  tcp_streams w = s :: streams ->
  (24 <= length (delivered s))%nat ->
  let response := take 24 (delivered s) in
  let header := be_uint (slice 0 2 response) in
  let force_unit := be_uint (slice 2 3 response) in
  let torque_unit := be_uint (slice 3 4 response) in
  let cpf := be_uint (slice 4 8 response) in
  let cpt := be_uint (slice 8 12 response) in
  let scale_factors :=
    (fun i => be_uint (slice (12 + 2 * i) (14 + 2 * i) response)) <$> seq 0 6 in
  (0 <= header < 2 ^ 16 ∧ 0 <= force_unit < 2 ^ 8 ∧ 0 <= torque_unit < 2 ^ 8 ∧
   0 <= cpf < 2 ^ 32 ∧ 0 <= cpt < 2 ^ 32 ∧
   Forall (fun x => 0 <= x < 2 ^ 16) scale_factors) ∧
  fst (read_calibration_info self w) =
    if decide (header = 0x1234)
    then Ok (<["force_unit_code" := VInt force_unit]>
            (<["torque_unit_code" := VInt torque_unit]>
            (<["counts_per_force" := VInt cpf]>
            (<["counts_per_torque" := VInt cpt]>
            (<["scale_factors" := VList (VInt <$> scale_factors)]> ∅)))))
    else Raise (RuntimeError ("Invalid header: " +:+ hex header)).
Proof.
  intros Hready Hsock Hst Hconn Hsend Hstreams Hlen.
  pose proof (read_calibration_info_run self to ip tp w Hready Hsock Hst Hconn Hsend) as Hrun.
  rewrite Hstreams in Hrun. cbn [head default] in Hrun. change (id s) with s in Hrun.
  specialize (Hrun (or_intror Hlen)). cbv zeta in Hrun.
  intros response. fold response in Hrun.
  assert (Hr : length response = 24%nat) by (unfold response; rewrite length_take; lia).
  clearbody response.
  do 24 (destruct response as [|? response]; [cbn in Hr; lia|]).
  destruct response; [|cbn in Hr; lia].
  cbn [length] in Hrun.
  destruct (decide (24%nat ≠ 24%nat)) as [|_]; [done|].
  cbn [unpack_fields fmt_HBBII6H replicate app unpack_one take drop fmt_size] in Hrun.
  cbn [slice take drop Nat.sub Nat.add Nat.mul fmap list_fmap seq].
  split.
  - repeat split;
      repeat first [apply Forall_nil_2 | apply Forall_cons_2];
      try split;
      match goal with
      | |- 0 <= be_uint ?l => apply (be_uint_bound l _ eq_refl)
      | |- be_uint ?l < _ => apply (be_uint_bound l _ eq_refl)
      end.
  - rewrite Hrun. clear Hrun.
    repeat case_decide; done.
Qed.

Lemma short_read_is_an_error_witness :
  fst (read_calibration_info ready_sensor
         (calibration_world (segments [take 10 (calibration_response 0x1234);
                                       take 7 (drop 10 (calibration_response 0x1234))])))
  = Raise (RuntimeError "Invalid response length: 17").
Proof.
  refine (proj1 (proj2 (short_read_is_an_error ready_sensor default_timeout
            (VStr "192.168.1.1") default_tcp_port
            (calibration_world (segments [take 10 (calibration_response 0x1234);
                                          take 7 (drop 10 (calibration_response 0x1234))]))
            (segments [take 10 (calibration_response 0x1234);
                       take 7 (drop 10 (calibration_response 0x1234))]) []
            _ eq_refl eq_refl eq_refl eq_refl eq_refl _)) _).
  - repeat split; vm_compute; reflexivity.
  - repeat constructor.
  - vm_compute. lia.
Defined.

Lemma calibration_header_checked_witness :
  fst (read_calibration_info ready_sensor
         (calibration_world (segments [take 10 (calibration_response 0x1235);
                                       drop 10 (calibration_response 0x1235)])))
  = Raise (RuntimeError "Invalid header: 0x1235").
Proof.
  refine (proj2 (calibration_header_checked ready_sensor default_timeout
            (VStr "192.168.1.1") default_tcp_port
            (calibration_world (segments [take 10 (calibration_response 0x1235);
                                          drop 10 (calibration_response 0x1235)]))
            (segments [take 10 (calibration_response 0x1235);
                       drop 10 (calibration_response 0x1235)]) []
            _ eq_refl eq_refl eq_refl eq_refl eq_refl _)).
  - repeat split; vm_compute; reflexivity.
  - vm_compute. lia.
Defined.


(** ** Unit names *)

(** C7. [describe_units] does no I/O and never fails.  A code from 1 to 6
    gives its name in the force table when [is_force] is true and in the
    torque table otherwise (2 is 'Newton' as a force unit, 3 is
    'Newton-meter' as a torque unit); any other code gives 'Unknown'. *)
Theorem describe_units_lookup self w :
  (∀ code name, (code, name) ∈ force_unit_names ->
     describe_units self code true w = (Ok name, w)) ∧
  (∀ code name, (code, name) ∈ torque_unit_names ->
     describe_units self code false w = (Ok name, w)) ∧
  (∀ code is_force, ¬ (1 <= code <= 6) ->
     describe_units self code is_force w = (Ok "Unknown", w)) ∧
  describe_units self 2 true w = (Ok "Newton", w) ∧
  describe_units self 3 false w = (Ok "Newton-meter", w).
Proof.
  split; [|split; [|split; [|split]]]; try reflexivity.
  - intros code name Hin. unfold force_unit_names in Hin.
    repeat (apply elem_of_cons in Hin as [[= -> ->]|Hin]; [reflexivity|]).
    by apply elem_of_nil in Hin.
  - intros code name Hin. unfold torque_unit_names in Hin.
    repeat (apply elem_of_cons in Hin as [[= -> ->]|Hin]; [reflexivity|]).
    by apply elem_of_nil in Hin.
  - intros code is_force Hout. unfold describe_units, force_units, torque_units.
    rewrite !lookup_insert_ne, !lookup_empty by lia. by destruct is_force.
Qed.

(** * More of the datagram client *)

Lemma read_raw_counts_of_response_witness :
  fst (read_raw_counts (bench_sensor VNone VNone)
         (bench_world [rdt_response [2147483647; -2147483648; 0; -1; 1; 65536]]))
  = Ok [2147483647; -2147483648; 0; -1; 1; 65536].
Proof.
  refine (read_raw_counts_of_response (bench_sensor VNone VNone) (VStr "192.168.1.1")
            VNone VNone default_tcp_port default_udp_port default_timeout
            (bench_world [rdt_response [2147483647; -2147483648; 0; -1; 1; 65536]]) []
            2147483647 (-2147483648) 0 (-1) 1 65536 _ eq_refl eq_refl _ eq_refl).
  - refine (proj1 (init_constructed _ _ _ _ _ _ quiet _ (snd (bench VNone VNone)) _)).
    vm_compute. reflexivity.
  - repeat first [apply Forall_nil_2 | apply Forall_cons_2]; unfold int32; lia.
Defined.

(** X2. A transport failure of [read_raw_counts] reaches the caller as it is:
    when [sendto] raises, nothing is received and the datagrams already
    on their way stay queued; when [recvfrom] raises, that exception is
    raised.  No timeout is ever set on the datagram socket, so with no
    datagram coming the call does not return. *)
Theorem read_raw_counts_failures ip cf ct tp up to w0 self w1 w :
  __init__ ip cf ct tp up to w0 = (Ok self, w1) ->
  udp_open w = true ->
  (∀ e, next_answer CSendTo w = Some e ->
     fst (read_raw_counts self w) = Raise e ∧
     receives (new_events w (snd (read_raw_counts self w))) = [] ∧
     recvfrom_script (snd (read_raw_counts self w)) = recvfrom_script w) ∧
  (∀ e rest, next_answer CSendTo w = None -> recvfrom_script w = RecvfromRaises e :: rest ->
     fst (read_raw_counts self w) = Raise e) ∧
  (next_answer CSendTo w = None -> recvfrom_script w = [] ->
     fst (read_raw_counts self w) = Blocks) ∧
  ESetTimeout to ∉ new_events w (snd (read_raw_counts self w)).
Proof.
  intros [Hc _]%init_constructed Ho.
  rewrite (read_raw_counts_run Hc). cbv zeta. rewrite Ho.
  split; [|split; [|split]].
  - intros e ->. cbn [fst snd]. split; [done|]. split.
    + by trace_is [ESendTo rdt_request (VPair ip up)].
    + done.
  - by intros e rest -> ->.
  - by intros -> ->.
  - destruct (next_answer CSendTo w) as [e|].
    + cbn [snd]. trace_is [ESendTo rdt_request (VPair ip up)].
      by intros ?%list_elem_of_singleton.
    + assert (Hev : ∀ w', new_events w w' =
                [ESendTo rdt_request (VPair ip up); ERecvFrom 36] ->
                ESetTimeout to ∉ new_events w w').
      { intros w' ->. intros Hin. repeat (apply elem_of_cons in Hin as [?|Hin]; [done|]).
        by apply elem_of_nil in Hin. }
      destruct (recvfrom_script w) as [|[d|e] s]; cbn [snd]; apply Hev;
        by trace_is [ESendTo rdt_request (VPair ip up); ERecvFrom 36].
Qed.

Lemma read_raw_counts_failures_witness :
  fst (read_raw_counts (bench_sensor VNone VNone) (bench_world [])) = Blocks.
Proof.
  refine (proj1 (proj2 (proj2 (read_raw_counts_failures (VStr "192.168.1.1") VNone VNone
            default_tcp_port default_udp_port default_timeout quiet
            (bench_sensor VNone VNone) (snd (bench VNone VNone)) (bench_world [])
            _ eq_refl))) eq_refl eq_refl).
  vm_compute. reflexivity.
Defined.

(** X3. [read_ft] does no I/O of its own: whatever the instance and the world,
    it leaves the world exactly as [read_raw_counts] leaves it, and when
    [read_raw_counts] raises or never returns, so does [read_ft], with the
    same exception. *)
Theorem read_ft_adds_no_io (self : obj) (w : world) :
  snd (read_ft self w) = snd (read_raw_counts self w) ∧
  (∀ e, fst (read_raw_counts self w) = Raise e -> fst (read_ft self w) = Raise e) ∧
  (fst (read_raw_counts self w) = Blocks -> fst (read_ft self w) = Blocks).
Proof.
  unfold read_ft. rewrite bind_run.
  destruct (read_raw_counts self w) as [[R|e|] w']; cbn [fst snd];
    [|split_and!; intros; congruence..].
  split; [|split; intros; discriminate].
  unfold index, getattr, lift.
  repeat first
    [ reflexivity
    | rewrite bind_run | rewrite run_ret | rewrite run_raise
    | progress cbv beta iota
    | match goal with
      | |- context [match ?o with Some _ => _ | None => _ end] => destruct o
      | |- context [match truediv ?r ?c with _ => _ end] => destruct (truediv r c)
      end ].
Qed.

Lemma truediv_nonzero r c :
  int32 r -> nonzero_scale c -> truediv r c = Ok (float_quot r c).
Proof.
  intros Hr Hc. pose proof float_overflow_threshold_large as Ht.
  change (2 ^ 31) with 2147483648 in Ht. unfold int32 in Hr.
  destruct c as [|z|f| | | | |]; try done; unfold nonzero_scale in Hc; unfold truediv.
  - destruct (Z.eqb_spec z 0); [lia|].
    destruct (Z.leb_spec (float_overflow_threshold * Z.abs z) (Z.abs r)); [nia|done].
  - destruct (Z.leb_spec float_overflow_threshold (Z.abs r)); [lia|].
    by rewrite Hc.
Qed.

Lemma truediv_not_number r c : ¬ is_number c -> ∃ msg, truediv r c = Raise (TypeError msg).
Proof.
  destruct c; cbn; intros Hn;
    first [ by destruct Hn | by exists "unsupported operand type(s) for /" ].
Qed.

(** X4. Once the counts are read, the scale factors alone decide how [read_ft]
    ends, the first one that is no good deciding: a scale factor that is
    not a number raises [TypeError], a zero one [ZeroDivisionError], and
    with two non-zero numbers a reading is returned.  The counts are
    32-bit, so [OverflowError] is never raised. *)
Theorem read_ft_outcome ip cf ct tp up to w0 self w1 w R w' :
  __init__ ip cf ct tp up to w0 = (Ok self, w1) ->
  read_raw_counts self w = (Ok R, w') ->
  (¬ is_number cf -> ∃ msg, read_ft self w = (Raise (TypeError msg), w')) ∧
  (zero_scale cf -> ∃ msg, read_ft self w = (Raise (ZeroDivisionError msg), w')) ∧
  (nonzero_scale cf -> ¬ is_number ct ->
     ∃ msg, read_ft self w = (Raise (TypeError msg), w')) ∧
  (nonzero_scale cf -> zero_scale ct ->
     ∃ msg, read_ft self w = (Raise (ZeroDivisionError msg), w')) ∧
  (nonzero_scale cf -> nonzero_scale ct ->
     ∃ reading, read_ft self w = (Ok reading, w')).
Proof.
  intros [Hc _]%init_constructed Hraw.
  destruct (read_raw_counts_counts _ _ _ _ _ _ _ _ _ _ Hc Hraw)
    as (r0 & r1 & r2 & r3 & r4 & r5 & -> & H0 & H1 & H2 & H3 & H4 & H5).
  rewrite (read_ft_run _ _ _ _ _ _ _ _ _ _ _ _ _ _ _ Hc Hraw).
  split_and!.
  - intros Hn. destruct (truediv_not_number r0 cf Hn) as [msg ->]. by exists msg.
  - intros Hz. destruct (truediv_zero r0 cf H0 Hz) as [msg ->]. by exists msg.
  - intros Hcf Hn. rewrite !(truediv_nonzero _ cf) by done.
    destruct (truediv_not_number r3 ct Hn) as [msg ->]. by exists msg.
  - intros Hcf Hz. rewrite !(truediv_nonzero _ cf) by done.
    destruct (truediv_zero r3 ct H3 Hz) as [msg ->]. by exists msg.
  - intros Hcf Hct. rewrite !(truediv_nonzero _ cf), !(truediv_nonzero _ ct) by done.
    by eexists.
Qed.

Lemma read_ft_outcome_witness :
  ∃ msg w', read_ft (bench_sensor VNone (VInt 1000))
              (bench_world [rdt_response [1; 2; 3; 4; 5; 6]])
            = (Raise (TypeError msg), w').
Proof.
  destruct (proj1 (read_ft_outcome (VStr "192.168.1.1") VNone (VInt 1000)
            default_tcp_port default_udp_port default_timeout quiet
            (bench_sensor VNone (VInt 1000)) (snd (bench VNone (VInt 1000)))
            (bench_world [rdt_response [1; 2; 3; 4; 5; 6]])
            [1; 2; 3; 4; 5; 6]
            (snd (read_raw_counts (bench_sensor VNone (VInt 1000))
                    (bench_world [rdt_response [1; 2; 3; 4; 5; 6]])))
            ltac:(vm_compute; reflexivity) ltac:(vm_compute; reflexivity))
          (fun H : is_number VNone => H)) as [msg Hmsg].
  exists msg. eexists. exact Hmsg.
Defined.

(** * More of the stream client *)

Lemma recv_all_loop_invariant sock len : ∀ data w,
  (length data <= len)%nat ->
  fst (recv_all_loop sock len data w) ≠ Blocks ∧
  (∃ evs, trace (snd (recv_all_loop sock len data w)) = trace w ++ evs ∧
          Forall (is_recv len) evs) ∧
  (∀ out, fst (recv_all_loop sock len data w) = Ok out ->
     (length out <= len)%nat ∧
     ∃ got, out = data ++ got ∧
       delivered (tcp_in w) =
         got ++ delivered (tcp_in (snd (recv_all_loop sock len data w)))).
Proof.
  intros data. remember (len - length data)%nat as n eqn:Hn.
  revert data Hn. induction n as [n IH] using lt_wf_ind. intros data Hn w Hlen.
  rewrite recv_all_loop_step.
  destruct (decide (length data < len)%nat) as [Hlt|Hge].
  - rewrite sock_recv_run. cbv zeta.
    assert (Hk : is_recv len (ERecv (len - length data))) by (eexists; split; [done|lia]).
    destruct (tcp_in w) as [|[b bs|e] rest] eqn:Hin.
    + cbn [fst snd]. split; [done|]. split.
      * exists [ERecv (len - length data)]. split; [done|]. by apply Forall_cons_2; [|apply Forall_nil_2].
      * intros out [= <-]. split; [done|]. exists []. split; [by rewrite app_nil_r|].
        cbn [tcp_in log app]. by rewrite Hin.
    + destruct (len - length data)%nat as [|k] eqn:Ek; [lia|].
      cbn [take].
      set (w2 := set_tcp _ _ _).
      assert (Hlen2 : (length (data ++ b :: take k bs) <= len)%nat).
      { rewrite length_app. cbn [length]. rewrite length_take. lia. }
      assert (Hm : (len - length (data ++ b :: take k bs) < n)%nat).
      { rewrite length_app. cbn [length]. lia. }
      destruct (IH _ Hm (data ++ b :: take k bs) eq_refl w2 Hlen2)
        as (Hnb & (evs & Hevs & Hall) & Hout).
      split; [done|]. split.
      * exists (ERecv (S k) :: evs). split; [|by apply Forall_cons_2].
        rewrite Hevs. subst w2. cbn [trace set_tcp log]. by rewrite <- app_assoc.
      * intros out Hok. destruct (Hout out Hok) as (Hb & got & -> & Hdel).
        split; [done|]. exists ((b :: take k bs) ++ got).
        split; [by rewrite <- app_assoc|].
        rewrite <- app_assoc, <- Hdel. subst w2. cbn [tcp_in set_tcp delivered drop].
        destruct (drop k bs) as [|b' bs'] eqn:Ed.
        -- cbn [app]. f_equal.
           rewrite <- (take_drop k bs) at 1. by rewrite Ed, app_nil_r.
        -- cbn [delivered app]. f_equal.
           rewrite <- (take_drop k bs) at 1. rewrite Ed. by rewrite <- app_assoc.
    + cbn [fst snd]. split; [done|]. split.
      * exists [ERecv (len - length data)]. split; [done|]. by apply Forall_cons_2; [|apply Forall_nil_2].
      * intros out [=].
  - cbn [fst snd]. split; [done|]. split.
    + exists []. by rewrite app_nil_r.
    + intros out [= <-]. split; [done|]. exists []. by rewrite app_nil_r.
Qed.

(** X5. What [recv_all] returns is exactly what it takes from the stream: at
    most [len] bytes, the very next bytes of the stream, the bytes after
    them left for later reads.  Each [recv] it makes, whether it returns
    or raises in the end, asks for between 1 and [len] bytes. *)
Theorem recv_all_takes_what_it_returns (sock : value) (len : nat) (w : world) :
  match fst (recv_all sock len w) with
  | Ok out =>
      (length out <= len)%nat ∧
      delivered (tcp_in w) = out ++ delivered (tcp_in (snd (recv_all sock len w)))
  | _ => True
  end ∧
  Forall (is_recv len) (new_events w (snd (recv_all sock len w))).
Proof.
  unfold recv_all.
  destruct (recv_all_loop_invariant sock len [] w) as (Hnb & (evs & Hevs & Hall) & Hout);
    [cbn; lia|].
  split.
  - destruct (fst (recv_all_loop sock len [] w)) as [out|e|] eqn:E; [|done..].
    destruct (Hout out eq_refl) as (Hb & got & -> & Hdel). done.
  - by rewrite (new_events_app _ _ evs).
Qed.

Lemma recv_all_loop_error sock len e rest : ∀ pre data w,
  closes_cleanly pre ->
  tcp_in w = pre ++ RecvRaises e :: rest ->
  (length data + length (delivered pre) < len)%nat ->
  fst (recv_all_loop sock len data w) = Raise e.
Proof.
  induction pre as [|ev pre IH]; intros data w Hpre Hin Hlen;
    rewrite recv_all_loop_step, sock_recv_run, Hin; cbv zeta; cbn [app].
  - cbn [delivered length] in Hlen. by destruct (decide _); [|lia].
  - apply Forall_cons in Hpre as [Hev Hpre]. destruct ev as [b bs|]; [|done].
    cbn [delivered length] in Hlen. rewrite length_app in Hlen.
    destruct (decide _) as [_|]; [|lia].
    destruct (len - length data)%nat as [|k] eqn:Hk; [lia|].
    cbn [take drop]. rewrite take_ge, drop_ge by lia.
    apply IH; [done..|]. rewrite length_app. cbn [length]. lia.
Qed.

(** Unfold [read_calibration_info] on an instance that has the three
    attributes it reads, up to the first library call. *)
Ltac calibration_start Hready :=
  let Hto := fresh "Hto" in
  let Hip := fresh "Hip" in
  let Htp := fresh "Htp" in
  destruct Hready as (Hto & Hip & Htp);
  unfold read_calibration_info, socket_socket, sock_settimeout, sock_connect, sock_sendall,
    try_finally, getattr, sock_close;
  rewrite Hto, Hip, Htp;
  change (struct_pack fmt_B19x [1]) with (Ok (Byte.x01 :: replicate 19 Byte.x00));
  mrun.

(** X6. A refused connection or a failed send reaches the caller as it is,
    after the socket is closed: when [connect] raises nothing is sent,
    when [sendall] raises nothing is read.  The timeout is set before the
    connection is made, to [(self.ip, self.tcp_port)], and the request is
    the byte 1 followed by 19 zero bytes. *)
Theorem calibration_transport_failure self to ip tp w :
  calibration_ready self to ip tp ->
  next_answer CSocket w = None -> next_answer CSetTimeout w = None ->
  (∀ e, next_answer CConnect w = Some e ->
     fst (read_calibration_info self w) = Raise e ∧
     new_events w (snd (read_calibration_info self w)) =
       [ESocket SOCK_STREAM; ESetTimeout to; EConnect (VPair ip tp); EClose SOCK_STREAM]) ∧
  (∀ e, next_answer CConnect w = None -> next_answer CSendAll w = Some e ->
     fst (read_calibration_info self w) = Raise e ∧
     new_events w (snd (read_calibration_info self w)) =
       [ESocket SOCK_STREAM; ESetTimeout to; EConnect (VPair ip tp);
        ESendAll (Byte.x01 :: replicate 19 Byte.x00); EClose SOCK_STREAM]).
Proof.
  intros Hready Hsock Hst. split.
  - intros e Hconn. calibration_start Hready.
    rewrite Hsock. mrun. rewrite Hst. mrun. rewrite Hconn. mrun.
    split; [done|].
    by trace_is [ESocket SOCK_STREAM; ESetTimeout to; EConnect (VPair ip tp);
                 EClose SOCK_STREAM].
  - intros e Hconn Hsend. calibration_start Hready.
    rewrite Hsock. mrun. rewrite Hst. mrun. rewrite Hconn. mrun. rewrite Hsend. mrun.
    split; [done|].
    by trace_is [ESocket SOCK_STREAM; ESetTimeout to; EConnect (VPair ip tp);
                 ESendAll (Byte.x01 :: replicate 19 Byte.x00); EClose SOCK_STREAM].
Qed.

Lemma calibration_transport_failure_witness :
  fst (read_calibration_info ready_sensor
         (set_script CConnect [Some (OSError "[Errno 111] Connection refused")]
            (calibration_world [])))
  = Raise (OSError "[Errno 111] Connection refused").
Proof.
  refine (proj1 (proj1 (calibration_transport_failure ready_sensor default_timeout
            (VStr "192.168.1.1") default_tcp_port
            (set_script CConnect [Some (OSError "[Errno 111] Connection refused")]
               (calibration_world []))
            _ eq_refl eq_refl) (OSError "[Errno 111] Connection refused") eq_refl)).
  repeat split; vm_compute; reflexivity.
Defined.

(** X7. An error of [recv] before 24 bytes are there (a timeout, a reset) is
    raised as it is, not turned into the short-read error; the bytes
    received so far are dropped and the socket is closed. *)
Theorem calibration_read_error self to ip tp w pre e rest streams :
  calibration_ready self to ip tp ->
  next_answer CSocket w = None -> next_answer CSetTimeout w = None ->
  next_answer CConnect w = None -> next_answer CSendAll w = None ->
  tcp_streams w = (pre ++ RecvRaises e :: rest) :: streams ->
  closes_cleanly pre -> (length (delivered pre) < 24)%nat ->
  fst (read_calibration_info self w) = Raise e ∧
  last (trace (snd (read_calibration_info self w))) = Some (EClose SOCK_STREAM).
Proof.
  intros Hready Hsock Hst Hconn Hsend Hstreams Hpre Hlen.
  calibration_start Hready.
  rewrite Hsock. mrun. rewrite Hst. mrun. rewrite Hconn. mrun. rewrite Hsend. mrun.
  match goal with
  | |- context [recv_all ?sk 24 ?w5] =>
      pose proof (recv_all_loop_error sk 24 e rest pre [] w5 Hpre) as Hrecv;
      unfold recv_all; destruct (recv_all_loop sk 24 [] w5) as [r w6]
  end.
  cbn [tcp_in set_tcp log set_script tcp_streams fst length] in Hrecv.
  rewrite Hstreams in Hrecv. specialize (Hrecv eq_refl ltac:(lia)). subst r. mrun.
  split; [done|]. cbn [trace log]. apply last_snoc.
Qed.

Lemma calibration_read_error_witness :
  fst (read_calibration_info ready_sensor
         (calibration_world (segments [take 10 (calibration_response 0x1234)] ++
                             [RecvRaises (OSError "timed out")])))
  = Raise (OSError "timed out").
Proof.
  refine (proj1 (calibration_read_error ready_sensor default_timeout
            (VStr "192.168.1.1") default_tcp_port
            (calibration_world (segments [take 10 (calibration_response 0x1234)] ++
                                [RecvRaises (OSError "timed out")]))
            (segments [take 10 (calibration_response 0x1234)]) (OSError "timed out") [] []
            _ eq_refl eq_refl eq_refl eq_refl eq_refl _ _)).
  - repeat split; vm_compute; reflexivity.
  - repeat constructor.
  - vm_compute. lia.
Defined.

(** X8. A call that gets through [socket] to [sendall] does, in this order
    and once each: create the stream socket, set the timeout, connect to
    [(self.ip, self.tcp_port)], send the 20-byte request (1, then 19 zero
    bytes), read with [recv] calls that each ask for at most 24 bytes, and
    close the socket, however the reading and the decoding end. *)
Theorem calibration_exchange_order self to ip tp w :
  calibration_ready self to ip tp ->
  next_answer CSocket w = None -> next_answer CSetTimeout w = None ->
  next_answer CConnect w = None -> next_answer CSendAll w = None ->
  ∃ recvs,
    new_events w (snd (read_calibration_info self w)) =
      [ESocket SOCK_STREAM; ESetTimeout to; EConnect (VPair ip tp);
       ESendAll (Byte.x01 :: replicate 19 Byte.x00)] ++ recvs ++ [EClose SOCK_STREAM] ∧
    Forall (is_recv 24) recvs.
Proof.
  intros Hready Hsock Hst Hconn Hsend.
  calibration_start Hready.
  rewrite Hsock. mrun. rewrite Hst. mrun. rewrite Hconn. mrun. rewrite Hsend. mrun.
  match goal with
  | |- context [recv_all ?sk 24 ?w5] =>
      destruct (recv_all_loop_invariant sk 24 [] w5) as (Hnb & (evs & Hevs & Hall) & _);
        [cbn; lia|];
      unfold recv_all; destruct (recv_all_loop sk 24 [] w5) as [r w6]
  end.
  cbn [fst snd trace log set_tcp set_script] in Hnb, Hevs.
  exists evs. split; [|done].
  apply new_events_app.
  destruct r as [response|e|]; [|by mrun; cbn [trace log]; rewrite Hevs, <- !app_assoc|done].
  mrun.
  case_decide; mrun; [by cbn [trace log]; rewrite Hevs, <- !app_assoc|].
  unfold struct_unpack. case_decide; mrun; [|by cbn [trace log]; rewrite Hevs, <- !app_assoc].
  destruct (unpack_fields _ _) as [|header [|fu [|tu [|cpf [|cpt sf]]]]]; mrun;
    try (by cbn [trace log]; rewrite Hevs, <- !app_assoc).
  case_decide; mrun; by cbn [trace log]; rewrite Hevs, <- !app_assoc.
Qed.

Lemma calibration_exchange_order_witness :
  ∃ recvs,
    new_events (calibration_world (segments [calibration_response 0x1234]))
      (snd (read_calibration_info ready_sensor
              (calibration_world (segments [calibration_response 0x1234])))) =
      [ESocket SOCK_STREAM; ESetTimeout default_timeout;
       EConnect (VPair (VStr "192.168.1.1") default_tcp_port);
       ESendAll (Byte.x01 :: replicate 19 Byte.x00)] ++ recvs ++ [EClose SOCK_STREAM].
Proof.
  destruct (calibration_exchange_order ready_sensor default_timeout
              (VStr "192.168.1.1") default_tcp_port
              (calibration_world (segments [calibration_response 0x1234])))
    as (recvs & Hev & _); [|reflexivity..|by exists recvs].
  repeat split; vm_compute; reflexivity.
Defined.

(** X9. The stream socket never outlives the call: whatever the instance and
    the world, if [socket()] raises nothing else is done, and otherwise,
    whether the call returns or raises, its last act is to close the
    socket it made; it makes no other socket and closes none before. *)
Theorem calibration_socket_always_closed (self : obj) (w : world) :
  match next_answer CSocket w with
  | Some e =>
      fst (read_calibration_info self w) = Raise e ∧
      new_events w (snd (read_calibration_info self w)) = [ESocket SOCK_STREAM]
  | None =>
      ∃ mids,
        new_events w (snd (read_calibration_info self w)) =
          ESocket SOCK_STREAM :: mids ++ [EClose SOCK_STREAM] ∧
        Forall (fun ev => ∀ k, ev ≠ ESocket k ∧ ev ≠ EClose k) mids
  end.
Proof.
  set (ok := fun ev : event => ∀ k, ev ≠ ESocket k ∧ ev ≠ EClose k).
  assert (Hrecv : ∀ evs, Forall (is_recv 24) evs -> Forall ok evs).
  { intros evs Hevs. eapply Forall_impl; [done|]. by intros ev (n & -> & _) k. }
  assert (Hok : ∀ to addr cmd, Forall ok [ESetTimeout to; EConnect addr; ESendAll cmd]).
  { intros. by repeat first [apply Forall_nil_2 | apply Forall_cons_2]. }
  unfold read_calibration_info, socket_socket, sock_settimeout, sock_connect, sock_sendall,
    try_finally, getattr, sock_close.
  change (struct_pack fmt_B19x [1]) with (Ok (Byte.x01 :: replicate 19 Byte.x00)).
  mrun.
  destruct (next_answer CSocket w) as [e|]; mrun; [by split; [|trace_is [ESocket SOCK_STREAM]]|].
  destruct (self !! "timeout") as [to|]; mrun;
    [|exists []; split; [by trace_is [ESocket SOCK_STREAM; EClose SOCK_STREAM]|done]].
  destruct (next_answer CSetTimeout w) as [e|]; mrun;
    [exists [ESetTimeout to]; split;
       [by trace_is [ESocket SOCK_STREAM; ESetTimeout to; EClose SOCK_STREAM]
       |by repeat first [apply Forall_nil_2 | apply Forall_cons_2]]|].
  destruct (self !! "ip") as [ip|]; mrun;
    [|exists [ESetTimeout to]; split;
       [by trace_is [ESocket SOCK_STREAM; ESetTimeout to; EClose SOCK_STREAM]
       |by repeat first [apply Forall_nil_2 | apply Forall_cons_2]]].
  destruct (self !! "tcp_port") as [tp|]; mrun;
    [|exists [ESetTimeout to]; split;
       [by trace_is [ESocket SOCK_STREAM; ESetTimeout to; EClose SOCK_STREAM]
       |by repeat first [apply Forall_nil_2 | apply Forall_cons_2]]].
  destruct (next_answer CConnect w) as [e|]; mrun.
  { exists [ESetTimeout to; EConnect (VPair ip tp)]. split.
    - by trace_is [ESocket SOCK_STREAM; ESetTimeout to; EConnect (VPair ip tp);
                   EClose SOCK_STREAM].
    - by repeat first [apply Forall_nil_2 | apply Forall_cons_2]. }
  destruct (next_answer CSendAll w) as [e|]; mrun.
  { exists [ESetTimeout to; EConnect (VPair ip tp); ESendAll (Byte.x01 :: replicate 19 Byte.x00)].
    split; [|done].
    by trace_is [ESocket SOCK_STREAM; ESetTimeout to; EConnect (VPair ip tp);
                 ESendAll (Byte.x01 :: replicate 19 Byte.x00); EClose SOCK_STREAM]. }
  match goal with
  | |- context [recv_all ?sk 24 ?w5] =>
      destruct (recv_all_loop_invariant sk 24 [] w5) as (Hnb & (evs & Hevs & Hall) & _);
        [cbn; lia|];
      unfold recv_all; destruct (recv_all_loop sk 24 [] w5) as [r w6]
  end.
  cbn [fst snd trace log set_tcp set_script] in Hnb, Hevs.
  assert (Hfin :
    ∃ mids, new_events w (log (EClose SOCK_STREAM) w6) =
              ESocket SOCK_STREAM :: mids ++ [EClose SOCK_STREAM] ∧ Forall ok mids).
  { exists ([ESetTimeout to; EConnect (VPair ip tp);
             ESendAll (Byte.x01 :: replicate 19 Byte.x00)] ++ evs).
    split; [|by apply Forall_app_2; [|apply Hrecv]].
    apply new_events_app. cbn [snd trace log]. rewrite Hevs. by rewrite <- !app_assoc. }
  destruct r as [response|e|]; [|by mrun; apply Hfin|done].
  mrun. case_decide; mrun; [by apply Hfin|].
  unfold struct_unpack. case_decide; mrun; [|by apply Hfin].
  destruct (unpack_fields _ _) as [|header [|fu [|tu [|cpf [|cpt sf]]]]]; mrun;
    try (by apply Hfin).
  case_decide; mrun; by apply Hfin.
Qed.

Lemma be_uint_be_bytes_small n z :
  0 <= z < 2 ^ (8 * Z.of_nat n) -> be_uint (be_bytes n z) = z.
Proof. intros Hz. rewrite be_uint_be_bytes. by apply Z.mod_small. Qed.

(** X10. Round trip of the calibration record: when the stream starts with the
    ['>HBBII6H'] encoding of the header 0x1234 and of field values within
    their widths, in whatever segments and whatever follows,
    [read_calibration_info] returns exactly those values. *)
Theorem calibration_round_trip self to ip tp w s streams fu tu cpf cpt s0 s1 s2 s3 s4 s5 more :
  calibration_ready self to ip tp ->
  next_answer CSocket w = None -> next_answer CSetTimeout w = None ->
  next_answer CConnect w = None -> next_answer CSendAll w = None ->
  tcp_streams w = s :: streams ->
  0 <= fu < 2 ^ 8 -> 0 <= tu < 2 ^ 8 -> 0 <= cpf < 2 ^ 32 -> 0 <= cpt < 2 ^ 32 ->
  Forall (fun x => 0 <= x < 2 ^ 16) [s0; s1; s2; s3; s4; s5] ->
  delivered s =
    be_bytes 2 0x1234 ++ be_bytes 1 fu ++ be_bytes 1 tu ++ be_bytes 4 cpf ++ be_bytes 4 cpt ++
    flat_map (be_bytes 2) [s0; s1; s2; s3; s4; s5] ++ more ->
  fst (read_calibration_info self w) =
    Ok (<["force_unit_code" := VInt fu]>
       (<["torque_unit_code" := VInt tu]>
       (<["counts_per_force" := VInt cpf]>
       (<["counts_per_torque" := VInt cpt]>
       (<["scale_factors" := VList (VInt <$> [s0; s1; s2; s3; s4; s5])]> ∅))))).
Proof.
  intros Hready Hsock Hst Hconn Hsend Hstreams Hfu Htu Hcpf Hcpt Hsf Hs.
  pose proof (read_calibration_info_run self to ip tp w Hready Hsock Hst Hconn Hsend) as Hrun.
  rewrite Hstreams in Hrun. cbn [head default] in Hrun. change (id s) with s in Hrun.
  rewrite Hs in Hrun.
  rewrite Hrun; [|right; cbn; lia]. clear Hrun. cbv zeta.
  repeat match goal with
         | H : Forall _ (_ :: _) |- _ => apply Forall_cons in H as [? H]
         end.
  change (take 24 _) with
    (be_bytes 2 0x1234 ++ be_bytes 1 fu ++ be_bytes 1 tu ++ be_bytes 4 cpf ++ be_bytes 4 cpt ++
     flat_map (be_bytes 2) [s0; s1; s2; s3; s4; s5]).
  case_decide as Hlen; [by cbn in Hlen|].
  change (unpack_fields fmt_HBBII6H _) with
    [be_uint (be_bytes 2 0x1234); be_uint (be_bytes 1 fu); be_uint (be_bytes 1 tu);
     be_uint (be_bytes 4 cpf); be_uint (be_bytes 4 cpt);
     be_uint (be_bytes 2 s0); be_uint (be_bytes 2 s1); be_uint (be_bytes 2 s2);
     be_uint (be_bytes 2 s3); be_uint (be_bytes 2 s4); be_uint (be_bytes 2 s5)].
  rewrite !be_uint_be_bytes_small by (cbn [Z.of_nat Pos.of_succ_nat Pos.succ Z.mul Pos.mul]; lia).
  by case_decide.
Qed.

Lemma calibration_round_trip_witness :
  fst (read_calibration_info ready_sensor
         (calibration_world (segments [take 10 (calibration_response 0x1234);
                                       drop 10 (calibration_response 0x1234)])))
  = Ok (<["force_unit_code" := VInt 2]>
       (<["torque_unit_code" := VInt 3]>
       (<["counts_per_force" := VInt 1000000]>
       (<["counts_per_torque" := VInt 1000]>
       (<["scale_factors" := VList (VInt <$> [1; 2; 3; 4; 5; 6])]> ∅))))).
Proof.
  refine (calibration_round_trip ready_sensor default_timeout (VStr "192.168.1.1")
            default_tcp_port
            (calibration_world (segments [take 10 (calibration_response 0x1234);
                                          drop 10 (calibration_response 0x1234)]))
            (segments [take 10 (calibration_response 0x1234);
                       drop 10 (calibration_response 0x1234)]) []
            2 3 1000000 1000 1 2 3 4 5 6 []
            _ eq_refl eq_refl eq_refl eq_refl eq_refl _ _ _ _ _ _).
  - repeat split; vm_compute; reflexivity.
  - lia.
  - lia.
  - lia.
  - lia.
  - repeat first [apply Forall_nil_2 | apply Forall_cons_2]; lia.
  - vm_compute. reflexivity.
Defined.

(** X11. What [recv_all] returns depends on the bytes of the stream only, not
    on how they are cut into segments: two streams that deliver the same
    bytes, each either closed by the peer at its end or long enough, give
    the same result, the first [len] of those bytes. *)
Theorem recv_all_any_segmentation sock len w1 w2 :
  closes_cleanly (tcp_in w1) ∨ (len <= length (delivered (tcp_in w1)))%nat ->
  closes_cleanly (tcp_in w2) ∨ (len <= length (delivered (tcp_in w2)))%nat ->
  delivered (tcp_in w1) = delivered (tcp_in w2) ->
  fst (recv_all sock len w1) = Ok (take len (delivered (tcp_in w1))) ∧
  fst (recv_all sock len w2) = fst (recv_all sock len w1).
Proof.
  intros H1 H2 Heq. rewrite !recv_all_delivers by done. by rewrite Heq.
Qed.

Lemma recv_all_any_segmentation_witness :
  fst (recv_all (VSock SOCK_STREAM) 24
         (set_tcp [] (segments [take 1 (calibration_response 0x1234);
                                take 22 (drop 1 (calibration_response 0x1234));
                                drop 23 (calibration_response 0x1234)]) quiet))
  = fst (recv_all (VSock SOCK_STREAM) 24
           (set_tcp [] (segments [calibration_response 0x1234]) quiet)).
Proof.
  refine (proj2 (recv_all_any_segmentation (VSock SOCK_STREAM) 24
            (set_tcp [] (segments [calibration_response 0x1234]) quiet)
            (set_tcp [] (segments [take 1 (calibration_response 0x1234);
                                   take 22 (drop 1 (calibration_response 0x1234));
                                   drop 23 (calibration_response 0x1234)]) quiet)
            _ _ _)).
  - left. repeat constructor.
  - left. repeat constructor.
  - vm_compute. reflexivity.
Defined.



(** ** The two sockets do not meet *)

Lemma ignores_ret {A} (a : A) : ignores_datagrams (mret a : M A).
Proof. by intros b q ss w. Qed.

Lemma ignores_raise {A} (e : exn) : ignores_datagrams (raise e : M A).
Proof. by intros b q ss w. Qed.

Lemma ignores_lift {A} (r : outcome A) : ignores_datagrams (lift r).
Proof. by intros b q ss w. Qed.

Lemma ignores_modify f :
  (∀ b q ss w, f (datagram_side b q ss w) = datagram_side b q ss (f w)) ->
  ignores_datagrams (modify f).
Proof. intros Hf b q ss w. unfold modify. cbn. by rewrite Hf. Qed.

Lemma ignores_emit ev : ignores_datagrams (emit ev).
Proof. by apply ignores_modify. Qed.

Lemma ignores_answer c : c ≠ CSendTo -> ignores_datagrams (answer c).
Proof.
  intros Hc b q ss w. unfold answer.
  destruct c; try done; cbn [script datagram_side socket_script settimeout_script
    connect_script sendall_script];
    by match goal with |- context [match ?s with _ => _ end] => destruct s as [|[e|] s'] end.
Qed.

Lemma ignores_bind {A B} (m : M A) (k : A -> M B) :
  ignores_datagrams m -> (∀ a, ignores_datagrams (k a)) -> ignores_datagrams (m ≫= k).
Proof.
  intros Hm Hk b q ss w. rewrite !bind_run, Hm.
  destruct (m w) as [[a|e|] w']; cbn [fst snd]; [|done..].
  by rewrite Hk.
Qed.

Lemma ignores_bind_at {A B} (m : M A) (k : A -> M B) (a0 : A) :
  ignores_datagrams m -> (∀ w a, fst (m w) = Ok a -> a = a0) ->
  ignores_datagrams (k a0) -> ignores_datagrams (m ≫= k).
Proof.
  intros Hm Ha Hk b q ss w. rewrite !bind_run, Hm.
  pose proof (Ha w) as Ha'.
  destruct (m w) as [[a|e|] w']; cbn [fst snd] in *; [|done..].
  rewrite (Ha' a eq_refl). by rewrite Hk.
Qed.

Lemma ignores_socket_socket : ignores_datagrams (socket_socket SOCK_STREAM).
Proof.
  unfold socket_socket.
  repeat first
    [ apply ignores_bind | apply ignores_emit | apply ignores_answer; discriminate
    | apply ignores_ret | apply ignores_modify; reflexivity
    | lazymatch goal with |- ignores_datagrams _ => fail | |- _ => intros ? end ].
Qed.

Lemma socket_socket_returns k w a : fst (socket_socket k w) = Ok a -> a = VSock k.
Proof.
  unfold socket_socket. mrun.
  destruct (next_answer CSocket w); cbn [fst]; congruence.
Qed.

Lemma ignores_try_finally {A} (body : M A) (cleanup : M unit) :
  ignores_datagrams body -> ignores_datagrams cleanup ->
  ignores_datagrams (try_finally body cleanup).
Proof.
  intros Hb Hc b q ss w. unfold try_finally. rewrite Hb.
  destruct (body w) as [[a|e|] w']; cbn [fst snd]; [| |done];
    rewrite Hc; by destruct (cleanup w') as [[[]|e'|] w''].
Qed.

Lemma ignores_getattr self name : ignores_datagrams (getattr self name).
Proof. unfold getattr. destruct (self !! name); [apply ignores_ret|apply ignores_raise]. Qed.

Lemma ignores_sock_recv sock n : ignores_datagrams (sock_recv sock n).
Proof.
  intros b q ss w. rewrite !sock_recv_run. cbv zeta. cbn [tcp_in datagram_side].
  by destruct (tcp_in w) as [|[b0 bs|e] rest].
Qed.

Lemma ignores_recv_all_loop sock len : ∀ data b q ss w,
  recv_all_loop sock len data (datagram_side b q ss w) =
  (fst (recv_all_loop sock len data w),
   datagram_side b q ss (snd (recv_all_loop sock len data w))).
Proof.
  intros data. remember (len - length data)%nat as n eqn:Hn.
  revert data Hn. induction n as [n IH] using lt_wf_ind. intros data Hn b q ss w.
  rewrite (recv_all_loop_step sock len data w),
    (recv_all_loop_step sock len data (datagram_side b q ss w)).
  destruct (decide (length data < len)%nat) as [Hlt|Hge]; [|done].
  rewrite ignores_sock_recv.
  destruct (sock_recv sock (len - length data) w) as [[[|b0 packet]|e|] w']; cbn [fst snd];
    try done.
  eapply IH; [|done]. rewrite length_app. cbn [length]. lia.
Qed.

Lemma ignores_recv_all sock len : ignores_datagrams (recv_all sock len).
Proof. intros b q ss w. apply ignores_recv_all_loop. Qed.

Lemma ignores_read_calibration_info self : ignores_datagrams (read_calibration_info self).
Proof.
  unfold read_calibration_info.
  eapply ignores_bind_at; [apply ignores_socket_socket|apply socket_socket_returns|].
  unfold sock_settimeout, sock_connect, sock_sendall, sock_close.
  repeat first
    [ apply ignores_bind | apply ignores_try_finally | apply ignores_emit
    | apply ignores_answer; discriminate | apply ignores_modify; reflexivity
    | apply ignores_ret | apply ignores_raise | apply ignores_lift
    | apply ignores_getattr | apply ignores_recv_all
    | lazymatch goal with |- ignores_datagrams _ => fail | |- _ => intros ? end
    | case_decide
    | match goal with
      | |- ignores_datagrams (match ?x with _ => _ end) => destruct x
      end ].
Qed.

(** X13. The calibration query has nothing to do with the datagram socket: its
    outcome is the same whether that socket is open or closed and whatever
    datagrams are on their way, and it leaves all of that as it was. *)
Theorem calibration_ignores_datagram_socket (self : obj) (w : world)
    (b : bool) (q : list udp_reply) (ss : list (option exn)) :
  fst (read_calibration_info self (datagram_side b q ss w)) =
    fst (read_calibration_info self w) ∧
  udp_open (snd (read_calibration_info self w)) = udp_open w ∧
  recvfrom_script (snd (read_calibration_info self w)) = recvfrom_script w ∧
  sendto_script (snd (read_calibration_info self w)) = sendto_script w.
Proof.
  split; [by rewrite ignores_read_calibration_info|].
  assert (Hw : w = datagram_side (udp_open w) (recvfrom_script w) (sendto_script w) w)
    by by destruct w.
  pose proof (ignores_read_calibration_info self
    (udp_open w) (recvfrom_script w) (sendto_script w) w) as H.
  rewrite <- Hw in H.
  destruct (read_calibration_info self w) as [r w']. cbn [fst snd] in *.
  injection H as H. by rewrite H.
Qed.
